(** * Interview Coach: the browser session (App.jsx) and the behavioural
      signal engine, as a shallow embedding.

    The first half of the file follows the React code of the front end:
    the metrics object, the "analysis" socket listener, the lip-sync score,
    the bounded metrics history, ending and restarting a session and the
    end-of-session summary.  The second half describes the per-frame engine
    of the back end (blink machine, confidence dynamics, mood scorer).

    JavaScript numbers are modelled as exact rationals [Q]; rounding error of
    IEEE doubles, NaN and the infinities are outside the model. *)

From Stdlib Require Import QArith Qround Lqa ZArith Lia Sorted.
From stdpp Require Import gmap strings list pretty.

Local Open Scope Q_scope.

(* ===================================================================== *)
(** ** JavaScript values used by the front end                            *)
(* ===================================================================== *)

Module Js.

(** A property of an object received as JSON: missing, [null], or a value. *)
Inductive field (A : Type) : Type :=
| Absent
| Null
| Val (a : A).
Arguments Absent {A}.
Arguments Null {A}.
Arguments Val {A} a.

(** [x ?? d] *)
Definition nullish {A} (x : field A) (d : A) : A :=
  match x with Val a => a | _ => d end.

(** [x ?? y], the right operand being a property again. *)
Definition nullish_field {A} (x y : field A) : field A :=
  match x with Val a => Val a | _ => y end.

(** [n || 0] for a number [n]: zero is falsy. *)
Definition num_or0 (n : Q) : Q := if Qeq_bool n 0 then 0 else n.

(** [x || 0] for a numeric property [x]. *)
Definition or0 (x : field Q) : Q :=
  match x with Val n => num_or0 n | _ => 0 end.

(** [Boolean(x)] for a string property: the empty string is falsy. *)
Definition truthy_str (x : field string) : bool :=
  match x with Val s => negb (String.eqb s "") | _ => false end.

(** [typeof x === "number"] followed by the use of [x]. *)
Definition as_number (x : field Q) : option Q :=
  match x with Val n => Some n | _ => None end.

(** [{ ...prev, ...next }], one property at a time: a property that [next]
    carries (even as [null]) overrides the one of [prev]. *)
Definition spread_field {A} (prev next : field A) : field A :=
  match next with Absent => prev | _ => next end.

Definition Math_max (a b : Q) : Q := if Qlt_le_dec a b then b else a.
Definition Math_min (a b : Q) : Q := if Qlt_le_dec b a then b else a.
Definition Math_abs (a : Q) : Q := if Qlt_le_dec a 0 then - a else a.
Definition Math_floor (a : Q) : Z := Qfloor a.
(** [Math.round] rounds halves towards plus infinity. *)
Definition Math_round (a : Q) : Z := Qfloor (a + (1 # 2)).

(** [a > b] and [a < b] on numbers. *)
Definition num_gt (a b : Q) : bool := if Qlt_le_dec b a then true else false.
Definition num_lt (a b : Q) : bool := num_gt b a.

(** [a % b] for a non-negative [a] and a positive [b]. *)
Definition rem (a b : Q) : Q := a - b * inject_Z (Qfloor (a / b)).

End Js.
Import Js.

(* ===================================================================== *)
(** ** Lip sync (App.jsx, computeLipSync)                                 *)
(* ===================================================================== *)

Record LipSync := { score : Q; status : string }.

(** [speechEnergyRef] is the value of [speechEnergyRef.current] at the call. *)
Definition computeLipSync (speechEnergyRef : Q) (mouthActivity : Q) : LipSync :=
  let diff := Math_abs (num_or0 mouthActivity - speechEnergyRef) in
  let score := Math_max 0 (100 - diff) in
  let status :=
    if num_gt score 70 then "Synced"
    else if num_gt score 45 then "Loosely Synced"
    else "Off-sync" in
  {| score := score; status := status |}.


(* ===================================================================== *)
(** ** The metrics object and the history entries (App.jsx)               *)
(* ===================================================================== *)

(** The "analysis" payload and the [metrics] state: the properties the
    front end reads, each possibly missing or null. *)
Record Metrics := {
  confidence_score : field Q;
  blink_count : field Q;
  head_pitch : field Q;
  head_yaw : field Q;
  gaze_deviation : field Q;
  mood_score : field Q;
  mood_label : field string;
  mouth_activity : field Q;
  microexpression : field string;
  warning : field string;
  movement_alerts : field Q
}.

(** [{ confidence_score: 100, blink_count: 0 }] *)
Definition initial_metrics : Metrics :=
  {| confidence_score := Val 100; blink_count := Val 0;
     head_pitch := Absent; head_yaw := Absent; gaze_deviation := Absent;
     mood_score := Absent; mood_label := Absent; mouth_activity := Absent;
     microexpression := Absent; warning := Absent; movement_alerts := Absent |}.

(** [{ ...prev, ...payload }]; spreading [null] or [undefined] adds nothing. *)
Definition spread (prev : Metrics) (payload : option Metrics) : Metrics :=
  match payload with
  | None => prev
  | Some p =>
    {| confidence_score := spread_field (confidence_score prev) (confidence_score p);
       blink_count := spread_field (blink_count prev) (blink_count p);
       head_pitch := spread_field (head_pitch prev) (head_pitch p);
       head_yaw := spread_field (head_yaw prev) (head_yaw p);
       gaze_deviation := spread_field (gaze_deviation prev) (gaze_deviation p);
       mood_score := spread_field (mood_score prev) (mood_score p);
       mood_label := spread_field (mood_label prev) (mood_label p);
       mouth_activity := spread_field (mouth_activity prev) (mouth_activity p);
       microexpression := spread_field (microexpression prev) (microexpression p);
       warning := spread_field (warning prev) (warning p);
       movement_alerts := spread_field (movement_alerts prev) (movement_alerts p) |}
  end.

(** [payload?.mouth_activity] *)
Definition payload_mouth_activity (payload : option Metrics) : field Q :=
  match payload with None => Absent | Some p => mouth_activity p end.

(** [{ ...updated, timestamp, speech_energy, lip_sync_score }] *)
Record HistoryEntry := {
  snapshot : Metrics;
  timestamp : Z;
  speech_energy : Q;
  lip_sync_score : field Q
}.

(** [next.slice(-n)]: the last [n] elements, all of them when there are fewer. *)
Definition slice_last {A} (n : nat) (l : list A) : list A :=
  drop (length l - n) l.

(** The updater given to [setMetricsHistory]. *)
Definition push_history (entry : HistoryEntry) (history : list HistoryEntry)
  : list HistoryEntry :=
  let next := history ++ [entry] in
  if (600 <? length next)%nat then slice_last 600 next else next.

(* ===================================================================== *)
(** ** The end-of-session summary (App.jsx, summarizeHistory)             *)
(* ===================================================================== *)

Module Stats.
(** [{ sampleScore, noveltyScore, matchScore }] *)
Record t := { sampleScore : Q; noveltyScore : Q; matchScore : Q }.
End Stats.

Module Summary.
Record t := {
  durationSeconds : Q;
  durationLabel : string;
  avgConfidence : Z;
  attention : Z;
  blinkTotal : Q;
  blinkRate : Q;
  warnings : nat;
  headMovementEvents : nat;
  suggestions : list string;
  avgMood : Z;
  compositeScore : Z;
  sampleScore : Z;
  noveltyScore : Z;
  matchScore : Z;
  lipSyncAverage : Z
}.
End Summary.

(** Arrays live in a store and are passed by reference: [history] is the
    caller's array, [suggestions] one that summarizeHistory allocates. *)
Module Store.

Definition loc := nat.

Inductive cell :=
| HistoryArr (items : list HistoryEntry)
| StringArr (items : list string).

Definition new_loc (h : gmap loc cell) : loc := fresh (dom h).

(** A computation reads and writes the store; [None] is a thrown TypeError. *)
Definition M (A : Type) : Type := gmap loc cell -> option (A * gmap loc cell).

Definition ret {A} (a : A) : M A := fun h => Some (a, h).

Definition bind {A B} (m : M A) (k : A -> M B) : M B :=
  fun h => match m h with
           | Some (a, h') => k a h'
           | None => None
           end.

(** Reading the elements of the history array at [l] ([.length], indexing,
    [reduce], [filter] and [map] all read and none of them writes). *)
Definition load_history (l : loc) : M (list HistoryEntry) :=
  fun h => match h !! l with
           | Some (HistoryArr items) => Some (items, h)
           | _ => None
           end.

Definition load_strings (l : loc) : M (list string) :=
  fun h => match h !! l with
           | Some (StringArr items) => Some (items, h)
           | _ => None
           end.

(** [const a = []] *)
Definition new_strings : M loc :=
  fun h => let l := new_loc h in Some (l, <[l := StringArr []]> h).

(** [a.push(s)] *)
Definition push (l : loc) (s : string) : M unit :=
  fun h => match h !! l with
           | Some (StringArr items) => Some (tt, <[l := StringArr (items ++ [s])]> h)
           | _ => None
           end.

(** [if (c) { m }] *)
Definition when (c : bool) (m : M unit) : M unit := if c then m else ret tt.

End Store.

Notation "'let*' x ':=' m 'in' k" := (Store.bind m (fun x => k))
  (at level 10, x name, k at level 200).

(** [items.reduce((sum, item) => sum + f(item), 0)] *)
Definition sum_by {A} (f : A -> Q) (items : list A) : Q :=
  fold_left (fun sum item => sum + f item) items 0.

(** [items.filter(p).length] *)
Definition count_by {A} (p : A -> bool) (items : list A) : nat :=
  length (List.filter p items).

(** [items.map(f).filter((value) => typeof value === "number")] *)
Definition numbers_of {A} (f : A -> field Q) (items : list A) : list Q :=
  omap (fun item => as_number (f item)) items.

Definition of_nat (n : nat) : Q := inject_Z (Z.of_nat n).

(** The mean of [values], or [fallback] when there is none. *)
Definition mean_or (values : list Q) (fallback : Q) : Q :=
  if (0 <? length values)%nat
  then sum_by (fun value => value) values / of_nat (length values)
  else fallback.

Definition excessive_head (item : HistoryEntry) : bool :=
  num_gt (Math_abs (or0 (head_pitch (snapshot item)))) 18
  || num_gt (Math_abs (or0 (head_yaw (snapshot item)))) 22.

Definition tip_gaze : string :=
  "Lock your gaze on the camera to project stronger engagement.".
Definition tip_blink : string :=
  "Slow your blinking cadence to convey calmness.".
Definition tip_posture : string :=
  "Anchor your posture—excessive nodding was detected.".
Definition tip_solid : string :=
  "Solid session! Keep iterating on your stories for mastery.".

(** The template literal for the session length. *)
Definition duration_label (minutes seconds : Z) : string :=
  if (minutes =? 0)%Z
  then pretty seconds +:+ "s"
  else pretty minutes +:+ "m " +:+ pretty seconds +:+ "s".

(** summarizeHistory; [lipSyncScore] is the value the callback closes over
    and [history] the reference to the array it is called with.  The result
    is [None] for JavaScript's [null]. *)
Definition summarizeHistory (lipSyncScore : Q) (history : Store.loc)
    (answerStats : Stats.t) : Store.M (option Summary.t) :=
  let* items := Store.load_history history in
  match items, last items with
  | first :: _, Some final =>
    let startTime := timestamp first in
    let endTime := timestamp final in
    let durationMs := Z.max 0 (endTime - startTime) in
    let durationSeconds := Math_max 1 (inject_Z durationMs / 1000) in
    let avgConfidence :=
      sum_by (fun item => or0 (confidence_score (snapshot item))) items
      / of_nat (length items) in
    let warnings := count_by (fun item => truthy_str (warning (snapshot item))) items in
    let avgGaze :=
      sum_by (fun item => or0 (gaze_deviation (snapshot item))) items
      / of_nat (length items) in
    let attention :=
      Z.max 0 (Z.min 100
        (Math_round (100 - of_nat warnings * 4 - avgGaze * 140))) in
    let blinkTotal := or0 (blink_count (snapshot final)) in
    let blinkRate :=
      if (0 <? durationMs)%Z
      then inject_Z (Math_round
             (blinkTotal / (inject_Z durationMs / 60000) * 10)) / 10
      else 0 in
    let headMovementEvents := count_by excessive_head items in
    let moodValues := numbers_of (fun item => mood_score (snapshot item)) items in
    let avgMood := mean_or moodValues 60 in
    let lipValues := numbers_of lip_sync_score items in
    let avgLipSync := mean_or lipValues lipSyncScore in
    let minutes := Math_floor (durationSeconds / 60) in
    let seconds := Z.max 1 (Math_round (rem durationSeconds 60)) in
    let durationLabel := duration_label minutes seconds in
    let* suggestions := Store.new_strings in
    let* _ := Store.when (attention <? 70)%Z
                (Store.push suggestions tip_gaze) in
    let* _ := Store.when (num_gt blinkRate 25)
                (Store.push suggestions tip_blink) in
    let* _ := Store.when (10 <? headMovementEvents)%nat
                (Store.push suggestions tip_posture) in
    let* sofar := Store.load_strings suggestions in
    let* _ := Store.when (length sofar =? 0)%nat
                (Store.push suggestions tip_solid) in
    let* tips := Store.load_strings suggestions in
    let compositeScore :=
      Math_round
        (avgConfidence * (33 # 100)
         + inject_Z attention * (18 # 100)
         + num_or0 (Stats.sampleScore answerStats) * (14 # 100)
         + num_or0 (Stats.noveltyScore answerStats) * (1 # 10)
         + avgMood * (12 # 100)
         + avgLipSync * (8 # 100)
         + Math_max 0 (100 - of_nat warnings * 3) * (5 # 100)) in
    Store.ret (Some
      {| Summary.durationSeconds := durationSeconds;
         Summary.durationLabel := durationLabel;
         Summary.avgConfidence := Math_round avgConfidence;
         Summary.attention := attention;
         Summary.blinkTotal := blinkTotal;
         Summary.blinkRate := blinkRate;
         Summary.warnings := warnings;
         Summary.headMovementEvents := headMovementEvents;
         Summary.suggestions := tips;
         Summary.avgMood := Math_round avgMood;
         Summary.compositeScore := compositeScore;
         Summary.sampleScore := Math_round (num_or0 (Stats.sampleScore answerStats));
         Summary.noveltyScore := Math_round (num_or0 (Stats.noveltyScore answerStats));
         Summary.matchScore := Math_round (num_or0 (Stats.matchScore answerStats));
         Summary.lipSyncAverage := Math_round avgLipSync |})
  | _, _ => Store.ret None
  end.

(* ===================================================================== *)
(** ** The App component: state, handlers and effects (App.jsx)           *)
(* ===================================================================== *)

(** The state hooks and refs of [App] that the session handlers touch. *)
Record AppState := {
  metrics : Metrics;
  sessionActive : bool;
  sessionActiveRef : bool;
  metricsHistory : list HistoryEntry;
  sessionSummary : option Summary.t;
  matchScore : Q;
  sampleScore : Q;
  noveltyScore : Q;
  missingKeywords : list string;
  showSampleAnswer : bool;
  speechEnergy : Q;
  speechEnergyRef : Q;
  transcriptStatsRef : Z * Z;      (* words, timestamp *)
  lipSyncScore : Q;
  lipSyncStatus : string;
  transcript : string;
  isSupported : bool;
  isListening : bool
}.

(** The state of the first render; [now] is [Date.now()] at that time. *)
Definition initial (supported : bool) (now : Z) : AppState :=
  {| metrics := initial_metrics;
     sessionActive := true;
     sessionActiveRef := true;
     metricsHistory := [];
     sessionSummary := None;
     matchScore := 0;
     sampleScore := 0;
     noveltyScore := 0;
     missingKeywords := [];
     showSampleAnswer := false;
     speechEnergy := 0;
     speechEnergyRef := 0;
     transcriptStatsRef := (0%Z, now);
     lipSyncScore := 100;
     lipSyncStatus := "Synced";
     transcript := "";
     isSupported := supported;
     isListening := false |}.

(** The entry the listener appends for [payload] arriving at time [now]. *)
Definition history_entry (payload : option Metrics) (now : Z) (s : AppState)
  : HistoryEntry :=
  let prev := metrics s in
  let updated := spread prev payload in
  let mouthActivity :=
    nullish (nullish_field (payload_mouth_activity payload)
              (nullish_field (mouth_activity updated) (mouth_activity prev))) 0 in
  {| snapshot := updated;
     timestamp := now;
     speech_energy := speechEnergyRef s;
     lip_sync_score := Val (score (computeLipSync (speechEnergyRef s) mouthActivity)) |}.

(** The socket listener of the "analysis" event. *)
Definition listener (payload : option Metrics) (now : Z) (s : AppState) : AppState :=
  let prev := metrics s in
  let updated := spread prev payload in
  let mouthActivity :=
    nullish (nullish_field (payload_mouth_activity payload)
              (nullish_field (mouth_activity updated) (mouth_activity prev))) 0 in
  let r := computeLipSync (speechEnergyRef s) mouthActivity in
  {| metrics := updated;
     sessionActive := sessionActive s;
     sessionActiveRef := sessionActiveRef s;
     metricsHistory :=
       if sessionActiveRef s
       then push_history
              {| snapshot := updated;
                 timestamp := now;
                 speech_energy := speechEnergyRef s;
                 lip_sync_score := Val (score r) |}
              (metricsHistory s)
       else metricsHistory s;
     sessionSummary := sessionSummary s;
     matchScore := matchScore s;
     sampleScore := sampleScore s;
     noveltyScore := noveltyScore s;
     missingKeywords := missingKeywords s;
     showSampleAnswer := showSampleAnswer s;
     speechEnergy := speechEnergy s;
     speechEnergyRef := speechEnergyRef s;
     transcriptStatsRef := transcriptStatsRef s;
     lipSyncScore := score r;
     lipSyncStatus := status r;
     transcript := transcript s;
     isSupported := isSupported s;
     isListening := isListening s |}.

(** The value summarizeHistory returns when called with an array holding
    [items]: the array is put in a store of its own and the call is run. *)
Definition summary_of (lip : Q) (items : list HistoryEntry) (answerStats : Stats.t)
  : option Summary.t :=
  match summarizeHistory lip 0%nat answerStats {[ 0%nat := Store.HistoryArr items ]} with
  | Some (r, _) => r
  | None => None
  end.

Definition handleEndSession (s : AppState) : AppState :=
  if negb (sessionActiveRef s) then s
  else
    {| metrics := metrics s;
       sessionActive := false;
       sessionActiveRef := sessionActiveRef s;
       metricsHistory := metricsHistory s;
       sessionSummary :=
         summary_of (lipSyncScore s) (metricsHistory s)
           {| Stats.sampleScore := sampleScore s;
              Stats.noveltyScore := noveltyScore s;
              Stats.matchScore := matchScore s |};
       matchScore := matchScore s;
       sampleScore := sampleScore s;
       noveltyScore := noveltyScore s;
       missingKeywords := missingKeywords s;
       showSampleAnswer := showSampleAnswer s;
       speechEnergy := speechEnergy s;
       speechEnergyRef := speechEnergyRef s;
       transcriptStatsRef := transcriptStatsRef s;
       lipSyncScore := lipSyncScore s;
       lipSyncStatus := lipSyncStatus s;
       transcript := transcript s;
       isSupported := isSupported s;
       isListening := false |}.

Definition handleRestart (s : AppState) : AppState :=
  {| metrics := initial_metrics;
     sessionActive := true;
     sessionActiveRef := sessionActiveRef s;
     metricsHistory := [];
     sessionSummary := None;
     matchScore := 0;
     sampleScore := 0;
     noveltyScore := 0;
     missingKeywords := [];
     showSampleAnswer := false;
     speechEnergy := speechEnergy s;
     speechEnergyRef := speechEnergyRef s;
     transcriptStatsRef := transcriptStatsRef s;
     lipSyncScore := 100;
     lipSyncStatus := "Synced";
     transcript := "";
     isSupported := isSupported s;
     isListening := if isSupported s then true else isListening s |}.

(** The effect on [sessionActive]: [sessionActiveRef.current = sessionActive]. *)
Definition syncSessionRef (s : AppState) : AppState :=
  {| metrics := metrics s;
     sessionActive := sessionActive s;
     sessionActiveRef := sessionActive s;
     metricsHistory := metricsHistory s;
     sessionSummary := sessionSummary s;
     matchScore := matchScore s;
     sampleScore := sampleScore s;
     noveltyScore := noveltyScore s;
     missingKeywords := missingKeywords s;
     showSampleAnswer := showSampleAnswer s;
     speechEnergy := speechEnergy s;
     speechEnergyRef := speechEnergyRef s;
     transcriptStatsRef := transcriptStatsRef s;
     lipSyncScore := lipSyncScore s;
     lipSyncStatus := lipSyncStatus s;
     transcript := transcript s;
     isSupported := isSupported s;
     isListening := isListening s |}.

(** The effect on [transcript]: [words] is the number of words of the new
    transcript [text] and [now] the time the effect runs. *)
Definition transcriptEffect (text : string) (words now : Z) (s : AppState) : AppState :=
  let '(prevWords, prevTime) := transcriptStatsRef s in
  let deltaWords := Z.max 0 (words - prevWords) in
  let deltaTime := Z.max 500 (now - (if (prevTime =? 0)%Z then now else prevTime)) in
  let wordsPerMinute := inject_Z deltaWords / inject_Z deltaTime * 60000 in
  let energy := Math_max 0 (Math_min 100 (wordsPerMinute / 140 * 100)) in
  {| metrics := metrics s;
     sessionActive := sessionActive s;
     sessionActiveRef := sessionActiveRef s;
     metricsHistory := metricsHistory s;
     sessionSummary := sessionSummary s;
     matchScore := matchScore s;
     sampleScore := sampleScore s;
     noveltyScore := noveltyScore s;
     missingKeywords := missingKeywords s;
     showSampleAnswer := showSampleAnswer s;
     speechEnergy := energy;
     speechEnergyRef := energy;
     transcriptStatsRef := (words, now);
     lipSyncScore := lipSyncScore s;
     lipSyncStatus := lipSyncStatus s;
     transcript := text;
     isSupported := isSupported s;
     isListening := isListening s |}.

(** What can happen to the component between two renders. *)
Inductive Event :=
| Analysis (payload : option Metrics) (now : Z)
| EndSession
| Restart
| SessionEffect
| TranscriptEffect (text : string) (words now : Z).

Definition step (s : AppState) (e : Event) : AppState :=
  match e with
  | Analysis payload now => listener payload now s
  | EndSession => handleEndSession s
  | Restart => handleRestart s
  | SessionEffect => syncSessionRef s
  | TranscriptEffect text words now => transcriptEffect text words now s
  end.

Definition run (s : AppState) (events : list Event) : AppState :=
  fold_left step events s.

(** The entries appended while the payloads [ps] are handled from [s] on,
    in the order of arrival. *)
Fixpoint emitted (s : AppState) (ps : list (option Metrics * Z)) : list HistoryEntry :=
  match ps with
  | [] => []
  | (payload, now) :: ps' =>
    history_entry payload now s :: emitted (listener payload now s) ps'
  end.

Definition analyses (ps : list (option Metrics * Z)) : list Event :=
  map (fun p => Analysis (fst p) (snd p)) ps.

(* ===================================================================== *)
(** ** The behavioural signal engine (back end)                           *)
(* ===================================================================== *)

(** The engine runs in the Flask back end (backend/cv_utils.py, class
    VideoProcessor), which is not among the sources of the front end above.
    Every definition of this module is therefore written from the
    specification's sections 3 to 7; the constants the specification fixes
    (0.25, 3, 12, 20, 100, 1.4, 1.0, 18, 22, 25, 15) are definitions, what it
    leaves to calibration is a field of [Tuning]. *)
Module Engine.

Inductive Side := Left | Right.

(** Modelled from the spec: the landmark roles of the back end's extractor,
    as section 3 names them for a LandmarkFrame: eye corners and lids
    (two upper and two lower lid points per eye, for the two vertical
    distances of the eye-aspect ratio), iris centres, nose tip, ears, mouth
    corners, top and bottom, brow points. *)
Inductive Role :=
| EyeCorner (s : Side) (inner : bool)
| EyeLid (s : Side) (upper : bool) (first : bool)
| IrisCenter (s : Side)
| NoseTip
| Ear (s : Side)
| MouthCorner (s : Side)
| MouthTop
| MouthBottom
| Brow (s : Side).

#[global] Instance Side_eq_dec : EqDecision Side.
Proof. solve_decision. Defined.
#[global] Instance Role_eq_dec : EqDecision Role.
Proof. solve_decision. Defined.

Definition sides : list Side := [Left; Right].

Definition required_roles : list Role :=
  (s ← sides; b ← [true; false]; [EyeCorner s b])
  ++ (s ← sides; u ← [true; false]; f ← [true; false]; [EyeLid s u f])
  ++ (IrisCenter <$> sides)
  ++ [NoseTip]
  ++ (Ear <$> sides)
  ++ (MouthCorner <$> sides)
  ++ [MouthTop; MouthBottom]
  ++ (Brow <$> sides).

Record Point3 := { px : Q; py : Q; pz : Q }.

(** Modelled from the spec: the per-frame input contract of section 6, an
    ordered set of named points or an explicit "no face" signal. *)
Inductive FrameInput :=
| NoFace
| Landmarks (points : list (Role * Point3)).

Fixpoint find_role (points : list (Role * Point3)) (r : Role) : option Point3 :=
  match points with
  | [] => None
  | (r', p) :: rest => if decide (r' = r) then Some p else find_role rest r
  end.

Definition has_role (points : list (Role * Point3)) (r : Role) : bool :=
  match find_role points r with Some _ => true | None => false end.

(** Modelled from the spec: the raw measurements of section 4.1 and the pose
    angles of section 4.3 for a frame that has every required landmark.  A
    ratio is [None] when its denominator (eye width, mouth height or width,
    inter-ocular distance) is zero or near zero: the DegenerateGeometry case
    of section 7, in which that sub-metric is skipped for the frame. *)
Record Raw := {
  ear_left : option Q;
  ear_right : option Q;
  iris_left : option Q;
  iris_right : option Q;
  smile_ratio : option Q;
  mouth_ratio : option Q;
  brow_gap : option Q;
  pitch : Q;
  yaw : Q
}.

Inductive MoodLabel := Engaged | Neutral | Tense.

(** Modelled from the spec: SessionState of section 3, with the per-category
    warning counters of section 4.6. *)
Record SessionState := {
  recent_ear : list Q;
  low_ear_frames : nat;
  blink_count : nat;
  confidence : Q;
  stable_smile : Q;
  frames_since_micro : nat;
  frames_since_gaze_warning : nat;
  frames_since_movement_warning : nat;
  frames_since_blink_warning : nat
}.

(** Modelled from the spec: MetricsSnapshot of sections 3 and 6. *)
Module Snapshot.
Record t := {
  confidence_score : Q;
  blink_count : nat;
  head_pitch : Q;
  head_yaw : Q;
  gaze_deviation : option Q;
  mood_score : Q;
  mood_label : MoodLabel;
  mouth_activity : option Q;
  microexpression : option string;
  warning : option string
}.
End Snapshot.

(** Modelled from the spec: the calibration of the back end's VideoProcessor,
    that is, what the specification leaves open: the distance and angle computations
    of the extractors (they need square roots and arc tangents) with the bound
    below which a denominator counts as near zero, the scale of
    the decay per combination of triggering conditions (movement, gaze, rapid
    blink), the gaze band, the mood weights and baselines, the sensitivity of
    the micro-expression detector, the rapid-blink test and the cooldowns of
    the gaze and blink warnings. *)
Record Tuning := {
  geometry : list (Role * Point3) -> Raw;
  decay_scale : bool -> bool -> bool -> Q;
  gaze_band : Q;
  mood_base : Q;
  smile_neutral : Q;
  smile_cap : Q;
  brow_relaxed : Q;
  w1 : Q; w2 : Q; w3 : Q; w4 : Q;
  mouth_scale : Q;
  micro_sensitivity : Q;
  rapid : SessionState -> bool;
  gaze_cooldown : nat;
  blink_cooldown : nat
}.

(** Modelled from the spec: the constants of VideoProcessor that sections
    3 and 4 fix. *)
Definition blink_threshold : Q := 25 # 100.
Definition blink_consec_frames : nat := 3.
Definition ear_window : nat := 12.
Definition min_confidence : Q := 20.
Definition max_confidence : Q := 100.
Definition score_decay : Q := 14 # 10.
Definition score_recovery : Q := 1.
Definition pitch_limit : Q := 18.
Definition yaw_limit : Q := 22.
Definition microexpression_cooldown : nat := 25.
Definition movement_cooldown : nat := 15.

(** Modelled from the spec: section 4.1, the extraction fails when a required
    role is absent, and section 6, "no face" is treated the same way. *)
Definition extract (t : Tuning) (input : FrameInput) : option Raw :=
  match input with
  | NoFace => None
  | Landmarks points =>
    if forallb (has_role points) required_roles
    then Some (geometry t points)
    else None
  end.

(** Modelled from the spec: sections 4.1 and 6, a frame that cannot be
    measured: no face, or a role without a point. *)
Definition missing (input : FrameInput) : Prop :=
  match input with
  | NoFace => True
  | Landmarks points => exists role : Role, find_role points role = None
  end.

(** Modelled from the spec: section 4.2, the eye-aspect ratio averaged over
    both eyes (there is none when the ratio of an eye is degenerate), and
    the CLOSED test on it. *)
Definition avg_ear (raw : Raw) : option Q :=
  match ear_left raw, ear_right raw with
  | Some l, Some r => Some ((l + r) / 2)
  | _, _ => None
  end.

Definition is_closed (ear : Q) : bool := num_lt ear blink_threshold.

(** Modelled from the spec: the blink state machine of section 4.2 on the
    pair (length of the current low-EAR run, blink count).  A closed frame
    lengthens the run; an open frame ends it and commits one blink when the
    run lasted at least [blink_consec_frames] frames. *)
Definition blink_step (run count : nat) (ear : Q) : nat * nat :=
  if is_closed ear then (S run, count)
  else if (blink_consec_frames <=? run)%nat then (0%nat, S count)
  else (0%nat, count).

(** Modelled from the spec: section 4.2, whether the frame with eye-aspect
    ratio [ear] commits a blink after a low-EAR run of [run] frames. *)
Definition commits (run : nat) (ear : Q) : bool :=
  negb (is_closed ear) && (blink_consec_frames <=? run)%nat.

(** Modelled from the spec: sections 4.2 and 7, the blink machine on a frame
    that may lack the eye-aspect ratio: without it the machine is not
    stepped. *)
Definition blink_update (run count : nat) (ear : option Q) : nat * nat :=
  match ear with
  | Some e => blink_step run count e
  | None => (run, count)
  end.

Definition committed_by (run : nat) (ear : option Q) : bool :=
  match ear with
  | Some e => commits run e
  | None => false
  end.

(** Modelled from the spec: section 3, the rolling window of the last
    [ear_window] samples. *)
Definition push_ear (window : list Q) (ear : Q) : list Q :=
  slice_last ear_window (window ++ [ear]).

(** Modelled from the spec: section 4.3, the gaze deviation and the two
    fixed-threshold classifications of the pose and gaze evaluator. *)
Definition gaze_of (raw : Raw) : option Q :=
  match iris_left raw, iris_right raw with
  | Some l, Some r => Some (Math_abs ((l + r) / 2 - (1 # 2)))
  | _, _ => None
  end.

Definition excessive_movement (raw : Raw) : bool :=
  num_gt (Math_abs (pitch raw)) pitch_limit || num_gt (Math_abs (yaw raw)) yaw_limit.

Definition looking_away (t : Tuning) (raw : Raw) : bool :=
  match gaze_of raw with
  | Some deviation => num_gt deviation (gaze_band t)
  | None => false
  end.

(** Modelled from the spec: section 4.4, exactly one of the two rules. *)
Definition confidence_step (t : Tuning) (movement gaze rapid_blink : bool) (c : Q) : Q :=
  if movement || gaze || rapid_blink
  then Math_max min_confidence
         (c - score_decay * decay_scale t movement gaze rapid_blink)
  else Math_min max_confidence (c + score_recovery).

(** Modelled from the spec: section 4.5, the mood score (weighted terms,
    clamped to [0, 100]; the term of a skipped sub-metric is left out), the
    label bands (70 and 40 belong to the lower band), the mouth activity and
    the micro-expression test of the scorer. *)
Definition term (x : option Q) (f : Q -> Q) : Q :=
  match x with Some v => f v | None => 0 end.

Definition clamp (lo hi x : Q) : Q := Math_max lo (Math_min hi x).

Definition in_range (lo hi x : Q) : Prop := lo <= x /\ x <= hi.

Definition mood_of (t : Tuning) (raw : Raw) : Q :=
  clamp 0 100
    (mood_base t
     + term (smile_ratio raw)
         (fun smile => w1 t * Math_min (smile_cap t) (smile - smile_neutral t))
     + term (brow_gap raw) (fun gap => w2 t * (gap - brow_relaxed t))
     - w3 t * (Math_abs (pitch raw) + Math_abs (yaw raw))
     - term (gaze_of raw) (fun deviation => w4 t * deviation)).

Definition label_of (mood : Q) : MoodLabel :=
  if num_gt mood 70 then Engaged
  else if num_gt mood 40 then Neutral
  else Tense.

Definition mouth_activity_of (t : Tuning) (raw : Raw) : option Q :=
  (fun ratio => clamp 0 100 (mouth_scale t * ratio)) <$> mouth_ratio raw.

Definition micro_detected (t : Tuning) (st : SessionState) (raw : Raw) : bool :=
  match smile_ratio raw with
  | Some smile =>
    num_gt (Math_abs (smile - stable_smile st)) (micro_sensitivity t)
    && (microexpression_cooldown <? frames_since_micro st)%nat
  | None => false
  end.

(** Modelled from the spec: section 4.6, at most one warning per snapshot,
    gaze before movement before blink. *)
Inductive Category := GazeWarning | MovementWarning | BlinkWarning.

#[global] Instance Category_eq_dec : EqDecision Category.
Proof. solve_decision. Defined.

Definition warning_text (c : Category) : string :=
  match c with
  | GazeWarning => "Maintain eye contact with the camera."
  | MovementWarning => "Too much head movement detected."
  | BlinkWarning => "Rapid blinking detected."
  end.

Definition gate (t : Tuning) (st : SessionState) (movement gaze rapid_blink : bool)
  : option Category :=
  if gaze && (gaze_cooldown t <=? frames_since_gaze_warning st)%nat
  then Some GazeWarning
  else if movement && (movement_cooldown <=? frames_since_movement_warning st)%nat
  then Some MovementWarning
  else if rapid_blink && (blink_cooldown t <=? frames_since_blink_warning st)%nat
  then Some BlinkWarning
  else None.

Definition tick (fired : bool) (n : nat) : nat := if fired then 0%nat else S n.

(** Modelled from the spec: section 6, the state allocated at session start
    (confidence 100, blink count 0). *)
Definition init (t : Tuning) : SessionState :=
  {| recent_ear := [];
     low_ear_frames := 0;
     blink_count := 0;
     confidence := max_confidence;
     stable_smile := smile_neutral t;
     frames_since_micro := 0;
     frames_since_gaze_warning := 0;
     frames_since_movement_warning := 0;
     frames_since_blink_warning := 0 |}.

(** Modelled from the spec: one scored frame, in the order of section 2:
    blink machine, pose and gaze, mood, confidence, warning gate.  A
    sub-metric whose ratio is degenerate is skipped for this frame (section
    7): the blink machine and the window keep their state, the gaze does not
    trigger, the mood leaves the term out, the snapshot omits the value. *)
Definition score_frame (t : Tuning) (st : SessionState) (raw : Raw)
  : SessionState * Snapshot.t :=
  let ear := avg_ear raw in
  let committed := committed_by (low_ear_frames st) ear in
  let '(run, count) := blink_update (low_ear_frames st) (blink_count st) ear in
  let movement := excessive_movement raw in
  let gaze := looking_away t raw in
  let rapid_blink := committed && rapid t st in
  let c := confidence_step t movement gaze rapid_blink (confidence st) in
  let micro := micro_detected t st raw in
  let w := gate t st movement gaze rapid_blink in
  let is_cat (k : Category) :=
    match w with Some k' => bool_decide (k = k') | None => false end in
  let mood := mood_of t raw in
  ({| recent_ear :=
        match ear with
        | Some e => push_ear (recent_ear st) e
        | None => recent_ear st
        end;
      low_ear_frames := run;
      blink_count := count;
      confidence := c;
      stable_smile :=
        if micro then default (stable_smile st) (smile_ratio raw)
        else stable_smile st;
      frames_since_micro := tick micro (frames_since_micro st);
      frames_since_gaze_warning :=
        tick (is_cat GazeWarning) (frames_since_gaze_warning st);
      frames_since_movement_warning :=
        tick (is_cat MovementWarning) (frames_since_movement_warning st);
      frames_since_blink_warning :=
        tick (is_cat BlinkWarning) (frames_since_blink_warning st) |},
   {| Snapshot.confidence_score := c;
      Snapshot.blink_count := count;
      Snapshot.head_pitch := pitch raw;
      Snapshot.head_yaw := yaw raw;
      Snapshot.gaze_deviation := gaze_of raw;
      Snapshot.mood_score := mood;
      Snapshot.mood_label := label_of mood;
      Snapshot.mouth_activity := mouth_activity_of t raw;
      Snapshot.microexpression :=
        if micro then Some "Micro-expression detected" else None;
      Snapshot.warning := warning_text <$> w |}).

(** Modelled from the spec: the update call of one frame.  When nothing can
    be measured the frame is skipped: same state, no snapshot. *)
Definition update (t : Tuning) (st : SessionState) (input : FrameInput)
  : SessionState * option Snapshot.t :=
  match extract t input with
  | None => (st, None)
  | Some raw => let '(st', snap) := score_frame t st raw in (st', Some snap)
  end.

(** The state after the frames [inputs], and the snapshots they produce. *)
Fixpoint run (t : Tuning) (st : SessionState) (inputs : list FrameInput)
  : SessionState :=
  match inputs with
  | [] => st
  | input :: rest => run t (fst (update t st input)) rest
  end.

Fixpoint snapshots (t : Tuning) (st : SessionState) (inputs : list FrameInput)
  : list Snapshot.t :=
  match inputs with
  | [] => []
  | input :: rest =>
    match update t st input with
    | (st', Some snap) => snap :: snapshots t st' rest
    | (st', None) => snapshots t st' rest
    end
  end.

(** The eye-aspect ratios of the frames of [inputs] that have one, oldest
    first: the frames the blink machine was stepped on. *)
Definition measured (t : Tuning) (inputs : list FrameInput) : list Q :=
  omap (fun input => extract t input ≫= avg_ear) inputs.

(** The length of the run of closed frames that ends the history [ears]
    (given oldest first). *)
Fixpoint closed_prefix (ears : list Q) : nat :=
  match ears with
  | ear :: rest => if is_closed ear then S (closed_prefix rest) else 0%nat
  | [] => 0%nat
  end.

Definition closed_run (ears : list Q) : nat := closed_prefix (rev ears).

End Engine.

(* ===================================================================== *)
(** ** Concrete sessions and frames used as test data                     *)
(* ===================================================================== *)

(** A payload with a confidence score and a mouth activity only. *)
Definition payload_of (confidence mouth : Q) : Metrics :=
  {| confidence_score := Val confidence; blink_count := Absent;
     head_pitch := Absent; head_yaw := Absent; gaze_deviation := Absent;
     mood_score := Absent; mood_label := Absent; mouth_activity := Val mouth;
     microexpression := Absent; warning := Absent; movement_alerts := Absent |}.

(** A session that received one payload, was ended, and whose effect has
    copied [sessionActive] into the ref. *)
Definition ended_session : AppState :=
  run (initial true 0)
    [Analysis (Some (payload_of 80 0)) 10; EndSession; SessionEffect].

(** Two stores that hold the same one-entry history at different places. *)
Definition sample_history : list HistoryEntry :=
  [history_entry (Some (payload_of 80 30)) 2000 (initial true 1000)].

Definition store_a : gmap Store.loc Store.cell :=
  {[ 0%nat := Store.HistoryArr sample_history ]}.

Definition store_b : gmap Store.loc Store.cell :=
  {[ 1%nat := Store.StringArr ["kept"]; 5%nat := Store.HistoryArr sample_history ]}.

Module Demo.
Import Engine.

Definition origin : Point3 := {| px := 0; py := 0; pz := 0 |}.

Definition at_role (points : list (Role * Point3)) (r : Role) : Point3 :=
  default origin (find_role points r).

(** Distances measured along the axes: the eye-aspect and the other ratios
    of a frontal face whose eye corners lie on a horizontal line and whose
    lid points lie on vertical ones.  The pose angles are those of the
    frontal pose. *)
Definition ratio (a b : Q) : option Q :=
  if Qeq_bool b 0 then None else Some (a / b).

Definition eye_ratio (points : list (Role * Point3)) (s : Side) : option Q :=
  let v1 := Math_abs (py (at_role points (EyeLid s true true))
                      - py (at_role points (EyeLid s false true))) in
  let v2 := Math_abs (py (at_role points (EyeLid s true false))
                      - py (at_role points (EyeLid s false false))) in
  let w := Math_abs (px (at_role points (EyeCorner s false))
                     - px (at_role points (EyeCorner s true))) in
  ratio (v1 + v2) (2 * w).

Definition iris_ratio (points : list (Role * Point3)) (s : Side) : option Q :=
  ratio
    (Math_abs (px (at_role points (IrisCenter s))
               - px (at_role points (EyeCorner s true))))
    (Math_abs (px (at_role points (EyeCorner s false))
               - px (at_role points (EyeCorner s true)))).

Definition mouth_width (points : list (Role * Point3)) : Q :=
  Math_abs (px (at_role points (MouthCorner Right))
            - px (at_role points (MouthCorner Left))).

Definition mouth_height (points : list (Role * Point3)) : Q :=
  Math_abs (py (at_role points MouthTop) - py (at_role points MouthBottom)).

Definition axis_geometry (points : list (Role * Point3)) : Raw :=
  {| ear_left := eye_ratio points Left;
     ear_right := eye_ratio points Right;
     iris_left := iris_ratio points Left;
     iris_right := iris_ratio points Right;
     smile_ratio := ratio (mouth_width points) (mouth_height points);
     mouth_ratio := ratio (mouth_height points) (mouth_width points);
     brow_gap :=
       ratio (Math_abs (py (at_role points (Brow Left))
                        - py (at_role points (EyeLid Left true true))))
             (Math_abs (px (at_role points (EyeCorner Right true))
                        - px (at_role points (EyeCorner Left true))));
     pitch := 0;
     yaw := 0 |}.

Definition tuning : Tuning :=
  {| geometry := axis_geometry;
     decay_scale := fun movement gaze rapid_blink =>
       (if movement then 2 else 0) + (if gaze then 1 else 0)
       + (if rapid_blink then 1 else 0);
     gaze_band := 1 # 10;
     mood_base := 50;
     smile_neutral := 4;
     smile_cap := 2;
     brow_relaxed := 3 # 10;
     w1 := 5; w2 := 10; w3 := 1 # 2; w4 := 40;
     mouth_scale := 100;
     micro_sensitivity := 1 # 2;
     rapid := fun _ => false;
     gaze_cooldown := 15;
     blink_cooldown := 15 |}.

(** A frontal face with eyes of width [width] whose lids are
    [ear * width] apart: the left eye spans 0 to [width], the right eye 2 to
    2 + [width]. *)
Definition point_with (width ear : Q) (r : Role) : Point3 :=
  let x0 (s : Side) : Q := match s with Left => 0 | Right => 2 end in
  match r with
  | EyeCorner s inner =>
    {| px := x0 s + (if inner then 0 else width); py := 0; pz := 0 |}
  | EyeLid s upper _ =>
    {| px := x0 s + width / 2; py := if upper then ear * width else 0; pz := 0 |}
  | IrisCenter s => {| px := x0 s + width / 2; py := 0; pz := 0 |}
  | MouthCorner Left => {| px := 0; py := 3; pz := 0 |}
  | MouthCorner Right => {| px := 1; py := 3; pz := 0 |}
  | MouthTop => {| px := 1 # 2; py := 3 + (1 # 4); pz := 0 |}
  | MouthBottom => {| px := 1 # 2; py := 3; pz := 0 |}
  | Brow s => {| px := x0 s + width / 2; py := ear * width + (6 # 10); pz := 0 |}
  | NoseTip | Ear _ => origin
  end.

Definition point_of (ear : Q) (r : Role) : Point3 := point_with 1 ear r.

Definition frame (ear : Q) : FrameInput :=
  Landmarks ((fun r => (r, point_of ear r)) <$> required_roles).

(** A face turned so far that both eyes have width zero: every landmark is
    there, but the eye-aspect and iris ratios are degenerate. *)
Definition frame_with_flat_eyes : FrameInput :=
  Landmarks ((fun r => (r, point_with 0 (15 # 100) r)) <$> required_roles).

(** A frame whose nose tip was not detected. *)
Definition frame_without_nose : FrameInput :=
  Landmarks ((fun r => (r, point_of (4 # 10) r))
             <$> List.filter (fun r => negb (bool_decide (r = NoseTip))) required_roles).

End Demo.

(* ===================================================================== *)
(** ** What App renders from the session state (App.jsx)                  *)
(* ===================================================================== *)

(** [lipSyncStatus === "Off-sync" && sessionActive]: the red notice over the
    video. *)
Definition offSyncOverlay (s : AppState) : bool :=
  String.eqb (lipSyncStatus s) "Off-sync" && sessionActive s.

(** [!sessionActive]: the "Session paused" cover. *)
Definition pausedOverlay (s : AppState) : bool := negb (sessionActive s).

(** LipSyncPanel.jsx: the colour of the status, the rounded score and
    energy, and the width of the bar in percent. *)
Module LipSyncPanel.
Record t := {
  statusColor : string;
  shownScore : Z;
  shownEnergy : Z;
  barWidth : Q
}.
End LipSyncPanel.

Definition lipSyncPanel (score : Q) (status : string) (energy : Q) : LipSyncPanel.t :=
  {| LipSyncPanel.statusColor :=
       if String.eqb status "Synced" then "text-emerald-300"
       else if String.eqb status "Loosely Synced" then "text-yellow-200"
       else "text-red-300";
     LipSyncPanel.shownScore := Math_round score;
     LipSyncPanel.shownEnergy := Math_round energy;
     LipSyncPanel.barWidth := Math_max 8 (Math_min 100 score) |}.

(** [<LipSyncPanel score={lipSyncScore} status={lipSyncStatus}
    energy={speechEnergy} />] *)
Definition lipSyncPanel_of (s : AppState) : LipSyncPanel.t :=
  lipSyncPanel (lipSyncScore s) (lipSyncStatus s) (speechEnergy s).

(** A lip-sync score and a status that belong together. *)
Definition lip_consistent (sc : Q) (st : string) : Prop :=
  (0 <= sc /\ sc <= 100) /\
  (st = "Synced" <-> 70 < sc) /\
  (st = "Loosely Synced" <-> 45 < sc /\ sc <= 70) /\
  (st = "Off-sync" <-> sc <= 45).

(** A history entry as the listener writes it: a numeric lip-sync score and
    a speech energy, both between 0 and 100. *)
Definition entry_ok (entry : HistoryEntry) : Prop :=
  (exists q : Q, lip_sync_score entry = Val q /\ 0 <= q /\ q <= 100) /\
  0 <= speech_energy entry /\ speech_energy entry <= 100.

(** The payloads [ps] merged into [m], oldest first. *)
Definition merge_payloads (m : Metrics) (ps : list (option Metrics * Z)) : Metrics :=
  fold_left (fun acc p => spread acc (fst p)) ps m.

(** What every state of the component satisfies, whatever happened. *)
Definition app_inv (s : AppState) : Prop :=
  (0 <= speechEnergyRef s /\ speechEnergyRef s <= 100) /\
  speechEnergy s = speechEnergyRef s /\
  lip_consistent (lipSyncScore s) (lipSyncStatus s) /\
  Forall entry_ok (metricsHistory s).

(** An entry whose scores are percentages, where it has them. *)
Definition percent (x : Q) : Prop := 0 <= x /\ x <= 100.

Definition entry_in_range (entry : HistoryEntry) : Prop :=
  percent (or0 (confidence_score (snapshot entry))) /\
  (forall v : Q, mood_score (snapshot entry) = Val v -> percent v) /\
  (forall v : Q, lip_sync_score entry = Val v -> percent v).

(** The coaching tips, from the three tests of summarizeHistory. *)
Definition tips_of (gaze blink posture : bool) : list string :=
  match (if gaze then [tip_gaze] else [])
        ++ (if blink then [tip_blink] else [])
        ++ (if posture then [tip_posture] else []) with
  | [] => [tip_solid]
  | tips => tips
  end.

(* ===================================================================== *)
(** ** Live analytics (AnalyticsPanel.jsx)                                *)
(* ===================================================================== *)

Module Analytics.
(** What the panel shows: the five cards and the bars of the trend. *)
Record t := {
  avgConfidence : Z;
  attentionScore : Z;
  avgMood : Z;
  blinkRate : Q;
  warnings : nat;
  trend : list Q;
  heights : list Q
}.
End Analytics.

(** AnalyticsPanel; [None] is the placeholder shown for an empty history. *)
Definition AnalyticsPanel (history : list HistoryEntry) : option Analytics.t :=
  match history, last history with
  | first :: _, Some final =>
    let avgConfidence :=
      sum_by (fun item => or0 (confidence_score (snapshot item))) history
      / of_nat (length history) in
    let warnings := count_by (fun item => truthy_str (warning (snapshot item))) history in
    let avgGaze :=
      sum_by (fun item => or0 (gaze_deviation (snapshot item))) history
      / of_nat (length history) in
    let avgMood :=
      sum_by (fun item => or0 (mood_score (snapshot item))) history
      / of_nat (length history) in
    let attentionScore :=
      Z.max 0 (Z.min 100
        (Math_round (100 - of_nat warnings * 3 - avgGaze * 120))) in
    let durationMs := (timestamp final - timestamp first)%Z in
    let blinkTotal := or0 (blink_count (snapshot final)) in
    let blinkRate :=
      if (0 <? durationMs)%Z
      then inject_Z (Math_round
             (blinkTotal / (inject_Z durationMs / 60000) * 10)) / 10
      else 0 in
    let trend :=
      map (fun item =>
             Math_max 0 (Math_min 100 (or0 (confidence_score (snapshot item)))))
          (slice_last 24 history) in
    Some {| Analytics.avgConfidence := Math_round avgConfidence;
            Analytics.attentionScore := attentionScore;
            Analytics.avgMood := Math_round avgMood;
            Analytics.blinkRate := blinkRate;
            Analytics.warnings := warnings;
            Analytics.trend := trend;
            Analytics.heights := map (fun value => Math_max 6 value) trend |}
  | _, _ => None
  end.

(* ===================================================================== *)
(** ** The question bank (App.jsx: cycleQuestion, handleCreateQuestion)   *)
(* ===================================================================== *)

(** A question as the back end lists it; identifiers are taken to be
    integers. *)
Module Question.
Record t := {
  id : Z;
  question : field string;
  keywords : field (list string);
  sample_answer : field string
}.
End Question.

(** The [questions] and [questionIndex] state hooks. *)
Record QuestionBank := {
  questions : list Question.t;
  questionIndex : nat
}.

(** [setMatchScore(0); setSampleScore(0); setNoveltyScore(0);
    setMissingKeywords([]); setShowSampleAnswer(show)] *)
Definition reset_answer (show : bool) (s : AppState) : AppState :=
  {| metrics := metrics s;
     sessionActive := sessionActive s;
     sessionActiveRef := sessionActiveRef s;
     metricsHistory := metricsHistory s;
     sessionSummary := sessionSummary s;
     matchScore := 0;
     sampleScore := 0;
     noveltyScore := 0;
     missingKeywords := [];
     showSampleAnswer := show;
     speechEnergy := speechEnergy s;
     speechEnergyRef := speechEnergyRef s;
     transcriptStatsRef := transcriptStatsRef s;
     lipSyncScore := lipSyncScore s;
     lipSyncStatus := lipSyncStatus s;
     transcript := transcript s;
     isSupported := isSupported s;
     isListening := isListening s |}.

(** [(prev) => (questions.length ? (prev + 1) % questions.length : 0)] *)
Definition next_index (count prev : nat) : nat :=
  if (0 <? count)%nat then ((prev + 1) mod count)%nat else 0%nat.

Definition cycleQuestion (b : QuestionBank) (s : AppState) : QuestionBank * AppState :=
  ({| questions := questions b;
      questionIndex := next_index (length (questions b)) (questionIndex b) |},
   reset_answer false s).

(** [n] presses of "Next Question". *)
Fixpoint cycles (n : nat) (b : QuestionBank) (s : AppState) : QuestionBank * AppState :=
  match n with
  | O => (b, s)
  | S n' => let '(b', s') := cycleQuestion b s in cycles n' b' s'
  end.

(** [list.findIndex(p)]; [None] is the result -1. *)
Fixpoint findIndex {A} (p : A -> bool) (l : list A) : option nat :=
  match l with
  | [] => None
  | x :: rest => if p x then Some 0%nat else S <$> findIndex p rest
  end.

(** handleCreateQuestion once the POST has succeeded: [created] is
    [data.question] and [list] what fetchQuestions returned and stored. *)
Definition handleCreateQuestion (created : Question.t) (list : list Question.t)
    (s : AppState) : QuestionBank * AppState :=
  let newIndex :=
    findIndex (fun q => (Question.id q =? Question.id created)%Z) list in
  ({| questions := list;
      questionIndex :=
        match newIndex with
        | Some i => i
        | None => Nat.max (length list - 1) 0
        end |},
   reset_answer (truthy_str (Question.sample_answer created)) s).

(* ===================================================================== *)
(** ** The form for a new question (QuestionCreator.jsx)                  *)
(* ===================================================================== *)

(** JavaScript strings as sequences of UTF-16 code units. *)
Module JsString.

Definition t := list N.

Definition comma : N := 44.

(** The code units [trim] removes: WhiteSpace and LineTerminator of
    ECMAScript (all of them single code units). *)
Definition is_space (c : N) : bool :=
  ((9 <=? c) && (c <=? 13)
   || (c =? 32) || (c =? 160) || (c =? 5760)
   || ((8192 <=? c) && (c <=? 8202))
   || (c =? 8232) || (c =? 8233) || (c =? 8239) || (c =? 8287)
   || (c =? 12288) || (c =? 65279))%N.

Fixpoint trimStart (s : t) : t :=
  match s with
  | c :: rest => if is_space c then trimStart rest else s
  | [] => []
  end.

Definition trimEnd (s : t) : t := rev (trimStart (rev s)).

Definition trim (s : t) : t := trimEnd (trimStart s).

(** [s.split(sep)] for a separator of one code unit: the empty string
    splits into one empty piece. *)
Fixpoint split (sep : N) (s : t) : list t :=
  match s with
  | [] => [[]]
  | c :: rest =>
    if (c =? sep)%N then [] :: split sep rest
    else match split sep rest with
         | piece :: pieces => (c :: piece) :: pieces
         | [] => [[c]]
         end
  end.

(** [Boolean(s)]: the empty string is falsy. *)
Definition truthy (s : t) : bool :=
  match s with [] => false | _ => true end.

(** A string of white space only (the empty string included). *)
Definition spaces (s : t) : Prop := Forall (fun c => is_space c = true) s.

End JsString.

Module NewQuestion.
(** The object given to [onCreate]. *)
Record t := {
  question : JsString.t;
  keywords : list JsString.t;
  sample_answer : JsString.t
}.
End NewQuestion.

(** [keywords.split(",").map((word) => word.trim()).filter(Boolean)] *)
Definition keywordList (keywords : JsString.t) : list JsString.t :=
  List.filter JsString.truthy
    (map JsString.trim (JsString.split JsString.comma keywords)).

(** handleSubmit up to the call of [onCreate]: [None] when the form is
    refused with "Question and keywords are required.". *)
Definition handleSubmit (question keywords sample : JsString.t)
  : option NewQuestion.t :=
  if negb (JsString.truthy (JsString.trim question))
     || negb (JsString.truthy (JsString.trim keywords))
  then None
  else Some {| NewQuestion.question := question;
               NewQuestion.keywords := keywordList keywords;
               NewQuestion.sample_answer := sample |}.

(* ===================================================================== *)
(** ** Facts about the numeric helpers                                    *)
(* ===================================================================== *)

Lemma num_gt_true a b : num_gt a b = true <-> b < a.
Proof.
  unfold num_gt. destruct (Qlt_le_dec b a) as [H|H]; split; intros; try done.
  exfalso. apply (Qlt_irrefl a). eapply Qle_lt_trans; eauto.
Qed.

Lemma num_gt_false a b : num_gt a b = false <-> a <= b.
Proof.
  unfold num_gt. destruct (Qlt_le_dec b a) as [H|H]; split; intros; try done.
  exfalso. apply (Qlt_irrefl a). eapply Qle_lt_trans; eauto.
Qed.

Lemma num_or0_eq n : num_or0 n == n.
Proof.
  unfold num_or0. destruct (Qeq_bool n 0) eqn:E; [|reflexivity].
  apply Qeq_bool_eq in E. symmetry. exact E.
Qed.

Lemma Math_max_lb_l a b : a <= Math_max a b.
Proof. unfold Math_max. destruct (Qlt_le_dec a b); lra. Qed.

Lemma Math_max_lub a b c : a <= c -> b <= c -> Math_max a b <= c.
Proof. unfold Math_max. destruct (Qlt_le_dec a b); lra. Qed.

Lemma Math_min_ub_l a b : Math_min a b <= a.
Proof. unfold Math_min. destruct (Qlt_le_dec b a); lra. Qed.

Lemma Math_min_glb a b c : c <= a -> c <= b -> c <= Math_min a b.
Proof. unfold Math_min. destruct (Qlt_le_dec b a); lra. Qed.

Lemma Math_abs_nonneg a : 0 <= Math_abs a.
Proof. unfold Math_abs. destruct (Qlt_le_dec a 0); lra. Qed.

Lemma Math_abs_compat a b : a == b -> Math_abs a == Math_abs b.
Proof. intros E. unfold Math_abs. do 2 destruct (Qlt_le_dec _ 0); lra. Qed.

Lemma Math_max_compat a b c d : a == c -> b == d -> Math_max a b == Math_max c d.
Proof. intros E1 E2. unfold Math_max. do 2 destruct (Qlt_le_dec _ _); lra. Qed.

(** C10: computeLipSync returns max(0, 100 - |m - e|), a score in [0, 100],
    and the status is decided by the score alone: "Synced" exactly above 70,
    "Loosely Synced" exactly in (45, 70], "Off-sync" exactly at 45 or below. *)
Theorem computeLipSync_spec (m e : Q) :
  let r := computeLipSync e m in
  score r == Math_max 0 (100 - Math_abs (m - e)) /\
  (0 <= score r /\ score r <= 100) /\
  (status r = "Synced" <-> 70 < score r) /\
  (status r = "Loosely Synced" <-> 45 < score r /\ score r <= 70) /\
  (status r = "Off-sync" <-> score r <= 45).
Proof.
  cbn zeta. unfold computeLipSync; cbn [score status].
  set (d := Math_abs (num_or0 m - e)).
  assert (Hd : 0 <= d) by apply Math_abs_nonneg.
  set (sc := Math_max 0 (100 - d)).
  assert (H0 : 0 <= sc) by apply Math_max_lb_l.
  assert (H100 : sc <= 100) by (apply Math_max_lub; lra).
  split.
  { apply Math_max_compat; [reflexivity|].
    assert (d == Math_abs (m - e)) as ->; [|reflexivity].
    apply Math_abs_compat. rewrite num_or0_eq. reflexivity. }
  split; [split; assumption|].
  destruct (num_gt sc 70) eqn:E70.
  - apply num_gt_true in E70.
    repeat split; intros; try done; try lra.
  - apply num_gt_false in E70. destruct (num_gt sc 45) eqn:E45.
    + apply num_gt_true in E45. repeat split; intros; try done; try lra.
    + apply num_gt_false in E45. repeat split; intros; try done; try lra.
Qed.

(* ===================================================================== *)
(** ** The session state of App: start, restart, bounded history          *)
(* ===================================================================== *)

(** C7: the first render and every restart set confidence_score to 100 and
    blink_count to 0, whatever happened before the restart. *)
Theorem session_start_and_restart (supported : bool) (now : Z)
    (s : AppState) (events : list Event) :
  confidence_score (metrics (initial supported now)) = Val 100 /\
  blink_count (metrics (initial supported now)) = Val 0 /\
  confidence_score (metrics (handleRestart s)) = Val 100 /\
  blink_count (metrics (handleRestart s)) = Val 0 /\
  metrics (run s (events ++ [Restart])) = initial_metrics.
Proof.
  repeat split; try reflexivity.
  unfold run. rewrite fold_left_app. reflexivity.
Qed.

Lemma slice_last_length {A} (n : nat) (l : list A) :
  (length (slice_last n l) <= n)%nat.
Proof. unfold slice_last. rewrite length_drop. lia. Qed.

Lemma slice_last_short {A} (n : nat) (l : list A) :
  (length l <= n)%nat -> slice_last n l = l.
Proof.
  intros H. unfold slice_last.
  replace (length l - n)%nat with 0%nat by lia. reflexivity.
Qed.

Lemma slice_last_app {A} (n : nat) (l k : list A) :
  slice_last n (slice_last n l ++ k) = slice_last n (l ++ k).
Proof.
  destruct (decide (length l <= n)%nat) as [Hle|Hgt].
  - rewrite (slice_last_short n l) by assumption. reflexivity.
  - unfold slice_last. rewrite !length_app, length_drop.
    replace (length l - (length l - n) + length k - n)%nat
      with (length k) by lia.
    replace (length l + length k - n)%nat
      with ((length l - n) + length k)%nat by lia.
    rewrite <- drop_drop. f_equal.
    rewrite drop_app_le by lia. reflexivity.
Qed.

Lemma push_history_slice (entry : HistoryEntry) (history : list HistoryEntry) :
  push_history entry history = slice_last 600 (history ++ [entry]).
Proof.
  unfold push_history. cbn zeta.
  destruct (600 <? length (history ++ [entry]))%nat eqn:E; [reflexivity|].
  apply Nat.ltb_ge in E. symmetry. apply slice_last_short. exact E.
Qed.

Lemma push_history_length (entry : HistoryEntry) (history : list HistoryEntry) :
  (length (push_history entry history) <= 600)%nat.
Proof. rewrite push_history_slice. apply slice_last_length. Qed.

Lemma listener_history (payload : option Metrics) (now : Z) (s : AppState) :
  metricsHistory (listener payload now s) =
    if sessionActiveRef s
    then push_history (history_entry payload now s) (metricsHistory s)
    else metricsHistory s.
Proof. reflexivity. Qed.

Lemma step_history_bound (s : AppState) (e : Event) :
  (length (metricsHistory s) <= 600)%nat ->
  (length (metricsHistory (step s e)) <= 600)%nat.
Proof.
  intros H. destruct e; cbn [step].
  - rewrite listener_history. destruct (sessionActiveRef s); [|exact H].
    apply push_history_length.
  - unfold handleEndSession. destruct (negb (sessionActiveRef s)); exact H.
  - cbn. lia.
  - exact H.
  - unfold transcriptEffect. destruct (transcriptStatsRef s). exact H.
Qed.

Lemma run_history_bound (events : list Event) (s : AppState) :
  (length (metricsHistory s) <= 600)%nat ->
  (length (metricsHistory (run s events)) <= 600)%nat.
Proof.
  revert s. induction events as [|e events IH]; intros s H; [exact H|].
  cbn. apply IH. apply step_history_bound. exact H.
Qed.

Lemma listener_sessionActiveRef (payload : option Metrics) (now : Z) (s : AppState) :
  sessionActiveRef (listener payload now s) = sessionActiveRef s.
Proof. reflexivity. Qed.

Lemma run_analyses_history (ps : list (option Metrics * Z)) (s : AppState) :
  sessionActiveRef s = true ->
  (length (metricsHistory s) <= 600)%nat ->
  metricsHistory (run s (analyses ps)) =
    slice_last 600 (metricsHistory s ++ emitted s ps).
Proof.
  revert s. induction ps as [|[payload now] ps IH]; intros s Hact Hlen.
  - cbn. rewrite app_nil_r, slice_last_short; [reflexivity|exact Hlen].
  - cbn [analyses map run fold_left step fst snd emitted].
    change (fold_left step (map _ ps) ?x) with (run x (analyses ps)).
    rewrite IH.
    + rewrite listener_history, Hact, push_history_slice, slice_last_app.
      rewrite <- app_assoc. reflexivity.
    + rewrite listener_sessionActiveRef. exact Hact.
    + rewrite listener_history, Hact. apply push_history_length.
Qed.

Lemma emitted_length (ps : list (option Metrics * Z)) (s : AppState) :
  length (emitted s ps) = length ps.
Proof.
  revert s. induction ps as [|[payload now] ps IH]; intros s; cbn; [reflexivity|].
  rewrite IH. reflexivity.
Qed.

(** C9: the retained history never holds more than 600 entries, and while
    the session is active it is the last 600 of the entries appended so far,
    in their order of arrival. *)
Theorem history_keeps_last_600 (supported : bool) (now0 : Z)
    (events : list Event) (ps : list (option Metrics * Z)) :
  let s := run (initial supported now0) events in
  (length (metricsHistory s) <= 600)%nat /\
  (sessionActiveRef s = true ->
   metricsHistory (run s (analyses ps)) =
     slice_last 600 (metricsHistory s ++ emitted s ps)) /\
  metricsHistory (run (initial supported now0) (analyses ps)) =
    slice_last 600 (emitted (initial supported now0) ps) /\
  length (metricsHistory (run (initial supported now0) (analyses ps))) =
    Nat.min 600 (length ps).
Proof.
  cbn zeta.
  assert (Hlen : (length (metricsHistory (run (initial supported now0) events))
                  <= 600)%nat).
  { apply run_history_bound. cbn. lia. }
  assert (Hinit : metricsHistory (run (initial supported now0) (analyses ps)) =
                  slice_last 600 (emitted (initial supported now0) ps)).
  { apply (run_analyses_history ps (initial supported now0)); cbn; [reflexivity|lia]. }
  split; [exact Hlen|]. split; [|split].
  - intros Hact. apply run_analyses_history; assumption.
  - exact Hinit.
  - rewrite Hinit. unfold slice_last. rewrite length_drop, emitted_length. lia.
Qed.

(* ===================================================================== *)
(** ** Payloads that arrive after the session has ended                   *)
(* ===================================================================== *)

Lemma run_analyses_inactive (ps : list (option Metrics * Z)) (s : AppState) :
  sessionActiveRef s = false ->
  metricsHistory (run s (analyses ps)) = metricsHistory s /\
  sessionSummary (run s (analyses ps)) = sessionSummary s /\
  sessionActive (run s (analyses ps)) = sessionActive s.
Proof.
  revert s. induction ps as [|[payload now] ps IH]; intros s Hoff; [done|].
  cbn [analyses map run fold_left step fst snd].
  change (fold_left step (map _ ps) ?x) with (run x (analyses ps)).
  destruct (IH (listener payload now s)) as (H1 & H2 & H3).
  { rewrite listener_sessionActiveRef. exact Hoff. }
  rewrite H1, H2, H3, listener_history, Hoff. done.
Qed.

(** C6, as the code has it: once the session has ended and
    [sessionActiveRef.current] says so, an arriving payload (and any number
    of them) leaves the metrics history, the session summary and the
    session flag as they are; ending the session keeps the accumulated
    history and metrics and computes the summary from that history; the
    accumulated state is reset by the restart. *)
Theorem ended_session_keeps_history (s : AppState) (payload : option Metrics)
    (now : Z) (ps : list (option Metrics * Z)) :
  sessionActiveRef s = false ->
  (metricsHistory (listener payload now s) = metricsHistory s /\
   sessionSummary (listener payload now s) = sessionSummary s /\
   sessionActive (listener payload now s) = sessionActive s) /\
  (metricsHistory (run s (analyses ps)) = metricsHistory s /\
   sessionSummary (run s (analyses ps)) = sessionSummary s) /\
  (forall s0 : AppState,
     metricsHistory (handleEndSession s0) = metricsHistory s0 /\
     metrics (handleEndSession s0) = metrics s0 /\
     (sessionActiveRef s0 = true ->
      sessionActive (handleEndSession s0) = false /\
      sessionSummary (handleEndSession s0) =
        summary_of (lipSyncScore s0) (metricsHistory s0)
          {| Stats.sampleScore := sampleScore s0;
             Stats.noveltyScore := noveltyScore s0;
             Stats.matchScore := matchScore s0 |}) /\
     metricsHistory (handleRestart s0) = [] /\
     metrics (handleRestart s0) = initial_metrics /\
     sessionSummary (handleRestart s0) = None).
Proof.
  intros Hoff. split; [|split].
  - rewrite listener_history, Hoff. done.
  - destruct (run_analyses_inactive ps s Hoff) as (H1 & H2 & _). done.
  - intros s0. unfold handleEndSession.
    destruct (sessionActiveRef s0); cbn; done.
Qed.

Lemma ended_session_keeps_history_witness :
  sessionActiveRef ended_session = false /\
  metricsHistory (listener (Some (payload_of 50 90)) 20 ended_session)
    = metricsHistory ended_session.
Proof.
  split; [reflexivity|].
  apply (ended_session_keeps_history ended_session (Some (payload_of 50 90)) 20 []).
  reflexivity.
Defined.

(** C6, as stated, fails: in a session that has ended a payload still
    replaces the metrics and the lip-sync score and status, and ending the
    session has not discarded the history it accumulated. *)
Lemma ended_session_payload_changes_metrics :
  sessionActive ended_session = false /\
  sessionActiveRef ended_session = false /\
  confidence_score (metrics ended_session) = Val 80 /\
  confidence_score (metrics (listener (Some (payload_of 50 90)) 20 ended_session))
    = Val 50 /\
  metrics (listener (Some (payload_of 50 90)) 20 ended_session)
    <> metrics ended_session /\
  lipSyncStatus ended_session = "Synced" /\
  lipSyncStatus (listener (Some (payload_of 50 90)) 20 ended_session) = "Off-sync" /\
  metricsHistory ended_session <> [].
Proof.
  repeat split; try (vm_compute; reflexivity).
  - intros H. apply (f_equal confidence_score) in H. vm_compute in H. discriminate.
  - vm_compute. discriminate.
Qed.

(* ===================================================================== *)
(** ** summarizeHistory reads its arguments and nothing else              *)
(* ===================================================================== *)

Lemma new_loc_fresh (h : gmap Store.loc Store.cell) : h !! Store.new_loc h = None.
Proof. unfold Store.new_loc. apply not_elem_of_dom. apply is_fresh. Qed.

Lemma when_push_run (h : gmap Store.loc Store.cell) (l : Store.loc)
    (xs : list string) (b : bool) (s : string) :
  h !! l = Some (Store.StringArr xs) ->
  Store.when b (Store.push l s) h =
    Some (tt, <[l := Store.StringArr (if b then xs ++ [s] else xs)]> h).
Proof.
  intros H. destruct b; cbn; unfold Store.push, Store.ret.
  - rewrite H. reflexivity.
  - rewrite insert_id by exact H. reflexivity.
Qed.

Lemma load_strings_run (h : gmap Store.loc Store.cell) (l : Store.loc)
    (xs : list string) :
  h !! l = Some (Store.StringArr xs) ->
  Store.load_strings l h = Some (xs, h).
Proof. intros H. unfold Store.load_strings. rewrite H. reflexivity. Qed.

Ltac store_step :=
  first
    [ erewrite when_push_run by apply lookup_insert_eq
    | erewrite load_strings_run by apply lookup_insert_eq ];
  cbv beta iota.

(** Called with a reference to an array holding [items], summarizeHistory
    returns the value [summary_of] computes from [items] alone, and every
    array that existed before the call holds what it held. *)
Lemma summarizeHistory_run (lip : Q) (answerStats : Stats.t)
    (items : list HistoryEntry) (l : Store.loc) (h : gmap Store.loc Store.cell) :
  h !! l = Some (Store.HistoryArr items) ->
  exists h' : gmap Store.loc Store.cell,
    summarizeHistory lip l answerStats h
      = Some (summary_of lip items answerStats, h') /\
    (forall k : Store.loc, is_Some (h !! k) -> h' !! k = h !! k).
Proof.
  intros H. unfold summary_of.
  unfold summarizeHistory, Store.bind, Store.load_history.
  rewrite H, lookup_singleton_eq.
  destruct items as [|first rest]; [by eexists|].
  destruct (last (first :: rest)) as [final|]; [|by eexists].
  cbv zeta. unfold Store.new_strings.
  repeat store_step.
  eexists. split; [reflexivity|].
  intros k [c Hk].
  assert (Hne : Store.new_loc h <> k).
  { intros E. rewrite <- E, new_loc_fresh in Hk. discriminate. }
  rewrite !lookup_insert_ne by exact Hne. reflexivity.
Qed.

(** C8: two calls of summarizeHistory with equal histories, equal answer
    statistics and the same lip-sync fallback return equal summaries, in
    whatever stores and at whatever references the two arrays live, and each
    call leaves the history it was given (and every other existing array) as
    it was. *)
Theorem summarizeHistory_stateless (lip : Q) (answerStats : Stats.t)
    (items : list HistoryEntry) (l1 l2 : Store.loc)
    (h1 h2 : gmap Store.loc Store.cell) :
  h1 !! l1 = Some (Store.HistoryArr items) ->
  h2 !! l2 = Some (Store.HistoryArr items) ->
  exists (r : option Summary.t) (h1' h2' : gmap Store.loc Store.cell),
    summarizeHistory lip l1 answerStats h1 = Some (r, h1') /\
    summarizeHistory lip l2 answerStats h2 = Some (r, h2') /\
    h1' !! l1 = Some (Store.HistoryArr items) /\
    h2' !! l2 = Some (Store.HistoryArr items) /\
    (forall k : Store.loc, is_Some (h1 !! k) -> h1' !! k = h1 !! k) /\
    (forall k : Store.loc, is_Some (h2 !! k) -> h2' !! k = h2 !! k).
Proof.
  intros H1 H2.
  destruct (summarizeHistory_run lip answerStats items l1 h1 H1) as (h1' & E1 & F1).
  destruct (summarizeHistory_run lip answerStats items l2 h2 H2) as (h2' & E2 & F2).
  exists (summary_of lip items answerStats), h1', h2'.
  repeat split; try assumption.
  - rewrite F1 by (rewrite H1; eauto). exact H1.
  - rewrite F2 by (rewrite H2; eauto). exact H2.
Qed.

Lemma summarizeHistory_stateless_witness :
  exists (r : option Summary.t) (h1' h2' : gmap Store.loc Store.cell),
    summarizeHistory 100 0%nat (Stats.Build_t 60 40 75) store_a = Some (r, h1') /\
    summarizeHistory 100 5%nat (Stats.Build_t 60 40 75) store_b = Some (r, h2') /\
    h1' !! 0%nat = Some (Store.HistoryArr sample_history) /\
    h2' !! 5%nat = Some (Store.HistoryArr sample_history) /\
    (forall k : Store.loc, is_Some (store_a !! k) -> h1' !! k = store_a !! k) /\
    (forall k : Store.loc, is_Some (store_b !! k) -> h2' !! k = store_b !! k).
Proof.
  apply (summarizeHistory_stateless 100 (Stats.Build_t 60 40 75) sample_history
           0%nat 5%nat store_a store_b); reflexivity.
Defined.

(* ===================================================================== *)
(** ** The engine: blink machine                                          *)
(* ===================================================================== *)

Module EngineFacts.
Import Engine.

Lemma score_frame_blink (t : Tuning) (st : SessionState) (raw : Raw) :
  low_ear_frames (fst (score_frame t st raw))
    = fst (blink_update (low_ear_frames st) (blink_count st) (avg_ear raw)) /\
  blink_count (fst (score_frame t st raw))
    = snd (blink_update (low_ear_frames st) (blink_count st) (avg_ear raw)) /\
  Snapshot.blink_count (snd (score_frame t st raw))
    = blink_count (fst (score_frame t st raw)).
Proof.
  unfold score_frame.
  destruct (blink_update (low_ear_frames st) (blink_count st) (avg_ear raw)).
  cbn. done.
Qed.

Lemma blink_update_count (run count : nat) (ear : option Q) :
  snd (blink_update run count ear)
    = if committed_by run ear then S count else count.
Proof.
  destruct ear as [e|]; [|reflexivity]. cbn. unfold blink_step, commits.
  destruct (is_closed e); [reflexivity|].
  destruct (blink_consec_frames <=? run)%nat; reflexivity.
Qed.

Lemma blink_update_run (run count : nat) (ear : option Q) :
  fst (blink_update run count ear) =
    match ear with
    | Some e => if is_closed e then S run else 0%nat
    | None => run
    end.
Proof.
  destruct ear as [e|]; [|reflexivity]. cbn. unfold blink_step.
  destruct (is_closed e); [reflexivity|].
  destruct (blink_consec_frames <=? run)%nat; reflexivity.
Qed.

Lemma update_blink_count (t : Tuning) (st : SessionState) (input : FrameInput) :
  blink_count (fst (update t st input)) =
    if committed_by (low_ear_frames st) (extract t input ≫= avg_ear)
    then S (blink_count st) else blink_count st.
Proof.
  unfold update. destruct (extract t input) as [raw|]; [|reflexivity].
  destruct (score_frame_blink t st raw) as (_ & H & _).
  destruct (score_frame t st raw) as [st' snap]. cbn in *.
  rewrite H. apply blink_update_count.
Qed.

Lemma update_blink_mono (t : Tuning) (st : SessionState) (input : FrameInput) :
  (blink_count st <= blink_count (fst (update t st input)))%nat.
Proof.
  rewrite update_blink_count.
  destruct (committed_by _ _); lia.
Qed.

Lemma update_snapshot_blink (t : Tuning) (st st' : SessionState)
    (input : FrameInput) (snap : Snapshot.t) :
  update t st input = (st', Some snap) ->
  Snapshot.blink_count snap = blink_count st'.
Proof.
  unfold update. destruct (extract t input) as [raw|]; [|discriminate].
  destruct (score_frame_blink t st raw) as (_ & _ & H).
  destruct (score_frame t st raw) as [st1 snap1]. cbn in *.
  intros [= <- <-]. exact H.
Qed.

Lemma run_blink_mono (t : Tuning) (inputs : list FrameInput) (st : SessionState) :
  (blink_count st <= blink_count (run t st inputs))%nat.
Proof.
  revert st. induction inputs as [|input rest IH]; intros st; cbn; [lia|].
  etransitivity; [apply (update_blink_mono t st input)|apply IH].
Qed.

Lemma snapshots_blink_ge (t : Tuning) (inputs : list FrameInput) (st : SessionState) :
  Forall (fun n => (blink_count st <= n)%nat)
         (Snapshot.blink_count <$> snapshots t st inputs).
Proof.
  revert st. induction inputs as [|input rest IH]; intros st; cbn; [constructor|].
  pose proof (update_blink_mono t st input) as Hm.
  destruct (update t st input) as [st' [snap|]] eqn:E; cbn in *.
  - constructor.
    + rewrite (update_snapshot_blink _ _ _ _ _ E). exact Hm.
    + eapply Forall_impl; [apply IH|]. cbn. intros; lia.
  - eapply Forall_impl; [apply IH|]. cbn. intros; lia.
Qed.

(** C1: the blink counts of the snapshots of a session never decrease,
    whatever the state the frames start from and whatever the frames are
    (skipped ones included); a count is a natural number. *)
Theorem blink_count_monotone (t : Tuning) (st : SessionState)
    (inputs : list FrameInput) :
  StronglySorted le (Snapshot.blink_count <$> snapshots t st inputs) /\
  Forall (fun n => (blink_count st <= n)%nat)
         (Snapshot.blink_count <$> snapshots t st inputs) /\
  (blink_count st <= blink_count (run t st inputs))%nat.
Proof.
  split; [|split; [apply snapshots_blink_ge|apply run_blink_mono]].
  revert st. induction inputs as [|input rest IH]; intros st; cbn; [constructor|].
  destruct (update t st input) as [st' [snap|]] eqn:E; cbn; [|apply IH].
  constructor; [apply IH|].
  rewrite (update_snapshot_blink _ _ _ _ _ E). apply snapshots_blink_ge.
Qed.

(* ===================================================================== *)
(** ** The engine: confidence dynamics                                    *)
(* ===================================================================== *)

Section Confidence.

Variable t : Tuning.

(** The scales of the decay are amounts: none of them is negative. *)
Hypothesis scales_nonneg :
  forall movement gaze rapid_blink : bool,
    0 <= decay_scale t movement gaze rapid_blink.

Lemma confidence_step_range (movement gaze rapid_blink : bool) (c : Q) :
  in_range 20 100 c ->
  in_range 20 100 (confidence_step t movement gaze rapid_blink c).
Proof.
  intros [Hlo Hhi]. unfold confidence_step, in_range.
  unfold min_confidence, max_confidence, score_decay, score_recovery.
  pose proof (scales_nonneg movement gaze rapid_blink) as Hscale.
  destruct (movement || gaze || rapid_blink).
  - split; [apply Math_max_lb_l|].
    apply Math_max_lub; [lra|]. nra.
  - split; [|apply Math_min_ub_l].
    apply Math_min_glb; lra.
Qed.

Lemma score_frame_confidence (st : SessionState) (raw : Raw) :
  exists movement gaze rapid_blink : bool,
    confidence (fst (score_frame t st raw))
      = confidence_step t movement gaze rapid_blink (confidence st) /\
    Snapshot.confidence_score (snd (score_frame t st raw))
      = confidence (fst (score_frame t st raw)).
Proof.
  unfold score_frame.
  destruct (blink_update (low_ear_frames st) (blink_count st) (avg_ear raw)).
  cbn. eauto.
Qed.

Lemma update_confidence_range (st : SessionState) (input : FrameInput) :
  in_range 20 100 (confidence st) ->
  in_range 20 100 (confidence (fst (update t st input))) /\
  (forall snap, snd (update t st input) = Some snap ->
     Snapshot.confidence_score snap = confidence (fst (update t st input))).
Proof.
  intros Hc. unfold update.
  destruct (extract t input) as [raw|]; [|split; [exact Hc|discriminate]].
  destruct (score_frame_confidence st raw) as (m & g & r & H1 & H2).
  destruct (score_frame t st raw) as [st' snap']. cbn in *.
  split.
  - rewrite H1. apply confidence_step_range; assumption.
  - intros snap [= <-]. exact H2.
Qed.

Lemma snapshots_confidence_range (inputs : list FrameInput) (st : SessionState) :
  in_range 20 100 (confidence st) ->
  Forall (fun snap => in_range 20 100 (Snapshot.confidence_score snap))
         (snapshots t st inputs) /\
  in_range 20 100 (confidence (run t st inputs)).
Proof.
  revert st.
  induction inputs as [|input rest IH]; intros st Hc; cbn; [split; [constructor|exact Hc]|].
  destruct (update_confidence_range st input Hc) as [Hst' Hsnap].
  destruct (update t st input) as [st' [snap|]]; cbn in *.
  - destruct (IH st' Hst') as [IH1 IH2]. split; [|exact IH2].
    constructor; [|exact IH1]. rewrite (Hsnap snap eq_refl). exact Hst'.
  - apply IH. exact Hst'.
Qed.

(** C2: a session starts with confidence 100, and whatever frames follow,
    every emitted confidence_score (and the score kept in the state) lies in
    [20, 100]; the scales of the decay are non-negative amounts. *)
Theorem confidence_within_bounds (inputs : list FrameInput) :
  confidence (init t) = 100 /\
  Forall (fun snap => 20 <= Snapshot.confidence_score snap
                      /\ Snapshot.confidence_score snap <= 100)
         (snapshots t (init t) inputs) /\
  20 <= confidence (run t (init t) inputs) /\
  confidence (run t (init t) inputs) <= 100.
Proof.
  split; [reflexivity|].
  apply (snapshots_confidence_range inputs (init t)).
  cbn. unfold in_range, max_confidence. lra.
Qed.

End Confidence.

(* ===================================================================== *)
(** ** The engine: when a blink is committed                              *)
(* ===================================================================== *)

Lemma run_app (t : Tuning) (a b : list FrameInput) (st : SessionState) :
  run t st (a ++ b) = run t (run t st a) b.
Proof. revert st. induction a as [|x a IH]; intros st; cbn; [reflexivity|apply IH]. Qed.

Lemma closed_run_snoc (ears : list Q) (ear : Q) :
  closed_run (ears ++ [ear])
    = if is_closed ear then S (closed_run ears) else 0%nat.
Proof. unfold closed_run. rewrite rev_app_distr. reflexivity. Qed.

Lemma measured_snoc (t : Tuning) (inputs : list FrameInput) (input : FrameInput) :
  measured t (inputs ++ [input]) =
    match extract t input ≫= avg_ear with
    | Some ear => measured t inputs ++ [ear]
    | None => measured t inputs
    end.
Proof.
  unfold measured. rewrite omap_app. cbn.
  destruct (extract t input ≫= avg_ear); cbn; [reflexivity|apply app_nil_r].
Qed.

Lemma update_low_ear_frames (t : Tuning) (st : SessionState) (input : FrameInput) :
  low_ear_frames (fst (update t st input)) =
    match extract t input ≫= avg_ear with
    | Some ear => if is_closed ear then S (low_ear_frames st) else 0%nat
    | None => low_ear_frames st
    end.
Proof.
  unfold update. destruct (extract t input) as [raw|]; [|reflexivity].
  destruct (score_frame_blink t st raw) as (H & _ & _).
  destruct (score_frame t st raw) as [st' snap]. cbn in *.
  rewrite H. apply blink_update_run.
Qed.

(** The counter of the state is the length of the closed run that ends the
    frames measured so far. *)
Lemma low_ear_frames_run (t : Tuning) (inputs : list FrameInput) :
  low_ear_frames (run t (init t) inputs) = closed_run (measured t inputs).
Proof.
  induction inputs as [|input inputs IH] using rev_ind; [reflexivity|].
  rewrite run_app, measured_snoc. cbn [run].
  rewrite update_low_ear_frames, IH.
  destruct (extract t input ≫= avg_ear) as [ear|]; [|reflexivity].
  rewrite closed_run_snoc. reflexivity.
Qed.

Lemma is_closed_true (ear : Q) : is_closed ear = true <-> ear < 25 # 100.
Proof. unfold is_closed, num_lt, blink_threshold. apply num_gt_true. Qed.

Lemma is_closed_false (ear : Q) : is_closed ear = false <-> ~ ear < 25 # 100.
Proof.
  rewrite <- is_closed_true. destruct (is_closed ear); split; congruence.
Qed.

Lemma closed_prefix_app (closed rest : list Q) :
  Forall (fun ear => ear < 25 # 100) closed ->
  closed_prefix (closed ++ rest) = (length closed + closed_prefix rest)%nat.
Proof.
  induction 1 as [|ear closed Hear _ IH]; [reflexivity|].
  cbn. apply is_closed_true in Hear. rewrite Hear, IH. reflexivity.
Qed.

Lemma closed_prefix_split (ears : list Q) :
  exists closed rest,
    ears = closed ++ rest /\ length closed = closed_prefix ears /\
    Forall (fun ear => ear < 25 # 100) closed /\
    (forall ear, head rest = Some ear -> ~ ear < 25 # 100).
Proof.
  induction ears as [|ear ears (closed & rest & Heq & Hlen & Hall & Hhead)].
  - exists [], []. repeat split; [constructor|discriminate].
  - cbn. destruct (is_closed ear) eqn:E.
    + exists (ear :: closed), rest. rewrite Heq at 1. cbn. rewrite Hlen.
      repeat split; [|exact Hhead].
      constructor; [apply is_closed_true; exact E|exact Hall].
    + exists [], (ear :: ears). repeat split; [constructor|].
      cbn. intros e [= <-]. apply is_closed_false. exact E.
Qed.

(** A run of at least [n] frames below 0.25 ends the history [ears]
    exactly when the counter [closed_run] is at least [n]. *)
Lemma closed_run_ge (n : nat) (ears : list Q) :
  (n <= closed_run ears)%nat <->
  exists earlier closed,
    ears = earlier ++ closed /\ (n <= length closed)%nat /\
    Forall (fun ear => ear < 25 # 100) closed.
Proof.
  unfold closed_run. split.
  - intros Hn. destruct (closed_prefix_split (rev ears))
      as (closed & rest & Heq & Hlen & Hall & _).
    exists (rev rest), (rev closed). split; [|split].
    + rewrite <- rev_app_distr, <- Heq, rev_involutive. reflexivity.
    + rewrite length_rev, Hlen. exact Hn.
    + apply Forall_rev. exact Hall.
  - intros (earlier & closed & -> & Hn & Hall).
    rewrite rev_app_distr, closed_prefix_app by (apply Forall_rev; exact Hall).
    rewrite length_rev. lia.
Qed.

(** C3: after any frames of a session, the next frame raises blink_count by
    exactly one if and only if it has an eye-aspect ratio, that averaged
    ratio is not below 0.25 (the frame is OPEN), and the frames with an
    eye-aspect ratio before it end in at least 3 frames whose ratio is below
    0.25 (a CLOSED run of length at least 3); in every other case
    blink_count stays.  In particular three closed frames followed by an
    open one commit a blink, and two closed frames after an open one (or
    fewer than three frames in all) followed by an open one commit none.
    Frames without landmarks or without an eye-aspect ratio leave the
    machine as it is and are not counted as frames of the run. *)
Theorem blink_commit_iff (t : Tuning) (inputs : list FrameInput) (input : FrameInput) :
  let st := run t (init t) inputs in
  let st' := fst (update t st input) in
  (blink_count st' = S (blink_count st) <->
   exists raw ear earlier closed,
     extract t input = Some raw /\ avg_ear raw = Some ear /\
     ~ ear < 25 # 100 /\
     measured t inputs = earlier ++ closed /\
     (3 <= length closed)%nat /\
     Forall (fun e => e < 25 # 100) closed) /\
  (blink_count st' = blink_count st \/ blink_count st' = S (blink_count st)) /\
  (forall raw ear earlier c1 c2 c3,
     extract t input = Some raw -> avg_ear raw = Some ear -> ~ ear < 25 # 100 ->
     measured t inputs = earlier ++ [c1; c2; c3] ->
     c1 < 25 # 100 -> c2 < 25 # 100 -> c3 < 25 # 100 ->
     blink_count st' = S (blink_count st)) /\
  (forall earlier o c1 c2,
     measured t inputs = earlier ++ [o; c1; c2] -> ~ o < 25 # 100 ->
     blink_count st' = blink_count st) /\
  ((length (measured t inputs) < 3)%nat -> blink_count st' = blink_count st).
Proof.
  cbn zeta.
  set (st := run t (init t) inputs). set (st' := fst (update t st input)).
  assert (Hiff : blink_count st' = S (blink_count st) <->
    exists raw ear earlier closed,
      extract t input = Some raw /\ avg_ear raw = Some ear /\
      ~ ear < 25 # 100 /\
      measured t inputs = earlier ++ closed /\
      (3 <= length closed)%nat /\
      Forall (fun e => e < 25 # 100) closed).
  { subst st st'. rewrite update_blink_count, low_ear_frames_run.
    destruct (extract t input) as [raw|]; cbn [mbind option_bind].
    - destruct (avg_ear raw) as [ear|] eqn:Eear; cbn [committed_by].
      + unfold commits, blink_consec_frames.
        destruct (is_closed ear) eqn:Eclosed; cbn [negb andb].
        * apply is_closed_true in Eclosed. split; [lia|].
          intros (raw' & ear' & earlier & closed & [= <-] & Hear & Hopen & _).
          rewrite Eear in Hear. injection Hear as <-. contradiction.
        * apply is_closed_false in Eclosed.
          destruct (3 <=? closed_run (measured t inputs))%nat eqn:Erun.
          -- apply Nat.leb_le, closed_run_ge in Erun.
             destruct Erun as (earlier & closed & Heq & Hlen & Hall).
             split; [|reflexivity]. intros _.
             exists raw, ear, earlier, closed. done.
          -- apply Nat.leb_gt in Erun. split; [lia|].
             intros (raw' & ear' & earlier & closed & _ & _ & _ & Heq & Hlen & Hall).
             assert (3 <= closed_run (measured t inputs))%nat; [|lia].
             apply closed_run_ge. eauto.
      + split; [lia|].
        intros (raw' & ear' & earlier & closed & [= <-] & Hear & _).
        rewrite Eear in Hear. discriminate.
    - cbn [committed_by]. split; [lia|].
      intros (raw' & ear' & earlier & closed & [=] & _). }
  assert (Hor : blink_count st' = blink_count st
                \/ blink_count st' = S (blink_count st)).
  { subst st st'. rewrite update_blink_count.
    destruct (committed_by _ _); [right|left]; reflexivity. }
  assert (Hnot : forall n, (closed_run (measured t inputs) < 3)%nat ->
                 blink_count st' = n -> n = blink_count st).
  { intros n Hlt <-. destruct Hor as [H|H]; [exact H|].
    apply Hiff in H.
    destruct H as (raw & ear & earlier & closed & _ & _ & _ & Heq & Hlen & Hall).
    assert (3 <= closed_run (measured t inputs))%nat; [|lia].
    apply closed_run_ge. eauto. }
  split; [exact Hiff|]. split; [exact Hor|]. split; [|split].
  - intros raw ear earlier c1 c2 c3 Hraw Hear Hopen Heq H1 H2 H3.
    apply Hiff. exists raw, ear, earlier, [c1; c2; c3].
    repeat split; try assumption; [cbn; lia|].
    repeat constructor; assumption.
  - intros earlier o c1 c2 Heq Ho. apply (Hnot (blink_count st')); [|reflexivity].
    rewrite Heq. unfold closed_run. rewrite rev_app_distr. cbn.
    apply is_closed_false in Ho. rewrite Ho.
    destruct (is_closed c2); [|lia]. destruct (is_closed c1); lia.
  - intros Hshort. apply (Hnot (blink_count st')); [|reflexivity].
    destruct (Nat.lt_ge_cases (closed_run (measured t inputs)) 3) as [H|H]; [exact H|].
    apply closed_run_ge in H. destruct H as (earlier & closed & Heq & Hlen & _).
    rewrite Heq, length_app in Hshort. lia.
Qed.

Lemma blink_commit_iff_witness :
  blink_count
    (fst (update Demo.tuning
            (run Demo.tuning (init Demo.tuning)
               [Demo.frame (15 # 100); Demo.frame (15 # 100); Demo.frame (15 # 100)])
            (Demo.frame (4 # 10))))
  = S (blink_count
         (run Demo.tuning (init Demo.tuning)
            [Demo.frame (15 # 100); Demo.frame (15 # 100); Demo.frame (15 # 100)])).
Proof.
  eapply (proj1 (proj2 (proj2
           (blink_commit_iff Demo.tuning
              [Demo.frame (15 # 100); Demo.frame (15 # 100); Demo.frame (15 # 100)]
              (Demo.frame (4 # 10)))))
         _ _ []).
  - vm_compute. reflexivity.
  - vm_compute. reflexivity.
  - vm_compute. intros H. discriminate H.
  - vm_compute. reflexivity.
  - vm_compute. reflexivity.
  - vm_compute. reflexivity.
  - vm_compute. reflexivity.
Defined.

(* ===================================================================== *)
(** ** The engine: mood score and label                                   *)
(* ===================================================================== *)

Lemma clamp_range (lo hi x : Q) : lo <= hi -> lo <= clamp lo hi x /\ clamp lo hi x <= hi.
Proof.
  intros H. unfold clamp. split; [apply Math_max_lb_l|].
  apply Math_max_lub; [exact H|apply Math_min_ub_l].
Qed.

Lemma label_of_bands (m : Q) :
  (label_of m = Engaged <-> 70 < m) /\
  (label_of m = Neutral <-> 40 < m /\ m <= 70) /\
  (label_of m = Tense <-> m <= 40).
Proof.
  unfold label_of.
  destruct (num_gt m 70) eqn:E70.
  - apply num_gt_true in E70. repeat split; intros; try done; lra.
  - apply num_gt_false in E70. destruct (num_gt m 40) eqn:E40.
    + apply num_gt_true in E40. repeat split; intros; try done; lra.
    + apply num_gt_false in E40. repeat split; intros; try done; lra.
Qed.

Lemma label_of_compat (m m' : Q) : m == m' -> label_of m = label_of m'.
Proof.
  intros E. destruct (label_of_bands m) as (A & B & C).
  destruct (label_of_bands m') as (A' & B' & C').
  destruct (label_of m) eqn:L.
  - symmetry. apply A'. rewrite <- E. apply A. reflexivity.
  - symmetry. apply B'. rewrite <- E. apply B. reflexivity.
  - symmetry. apply C'. rewrite <- E. apply C. reflexivity.
Qed.

Lemma score_frame_mood (t : Tuning) (st : SessionState) (raw : Raw) :
  Snapshot.mood_score (snd (score_frame t st raw)) = mood_of t raw /\
  Snapshot.mood_label (snd (score_frame t st raw)) = label_of (mood_of t raw).
Proof.
  unfold score_frame.
  destruct (blink_update (low_ear_frames st) (blink_count st) (avg_ear raw)).
  cbn. done.
Qed.

(** C4: every emitted mood_score lies in [0, 100]; the mood_label of a
    snapshot is [label_of] of its mood_score, a function of the value of the
    score alone; the label is Engaged exactly above 70, Neutral exactly in
    (40, 70] and Tense exactly at 40 or below. *)
Theorem mood_score_and_label (t : Tuning) (st : SessionState)
    (inputs : list FrameInput) (m m' : Q) :
  Forall (fun snap =>
            (0 <= Snapshot.mood_score snap /\ Snapshot.mood_score snap <= 100)
            /\ Snapshot.mood_label snap = label_of (Snapshot.mood_score snap))
         (snapshots t st inputs) /\
  (label_of m = Engaged <-> 70 < m) /\
  (label_of m = Neutral <-> 40 < m /\ m <= 70) /\
  (label_of m = Tense <-> m <= 40) /\
  (m == m' -> label_of m = label_of m').
Proof.
  split; [|pose proof (label_of_bands m) as (A & B & C);
           split; [exact A|split; [exact B|split; [exact C|apply label_of_compat]]]].
  revert st. induction inputs as [|input rest IH]; intros st; cbn; [constructor|].
  unfold update. destruct (extract t input) as [raw|]; [|apply IH].
  destruct (score_frame_mood t st raw) as [H1 H2].
  destruct (score_frame t st raw) as [st' snap]. cbn in *.
  constructor; [|apply IH].
  rewrite H2, H1. split; [|reflexivity].
  unfold mood_of. apply clamp_range. lra.
Qed.

(* ===================================================================== *)
(** ** The engine: frames that cannot be measured                         *)
(* ===================================================================== *)

Lemma required_roles_complete (r : Role) : In r required_roles.
Proof.
  destruct r as [[] []|[] [] []|[]| |[]|[]| | |[]]; vm_compute; tauto.
Qed.

Lemma extract_missing (t : Tuning) (input : FrameInput) :
  missing input -> extract t input = None.
Proof.
  destruct input as [|points]; [reflexivity|].
  intros [role Hrole]. unfold extract.
  destruct (forallb (has_role points) required_roles) eqn:E; [|reflexivity].
  rewrite forallb_forall in E.
  specialize (E role (required_roles_complete role)).
  unfold has_role in E. rewrite Hrole in E. discriminate.
Qed.

(** C5: a frame that carries the "no face" signal or lacks a landmark role
    is skipped: the update returns the very state it was given (every field
    of it) and no snapshot, hence no warning and no error; this holds along
    any number of such frames. *)
Theorem missing_landmarks_skip (t : Tuning) (st : SessionState)
    (input : FrameInput) (inputs : list FrameInput) :
  missing input ->
  Forall missing inputs ->
  update t st input = (st, None) /\
  run t st inputs = st /\
  snapshots t st inputs = [].
Proof.
  intros Hmiss Hall. split.
  - unfold update. rewrite (extract_missing t input Hmiss). reflexivity.
  - induction Hall as [|x xs Hx _ IH]; [done|]. cbn.
    unfold update. rewrite (extract_missing t x Hx). cbn. exact IH.
Qed.

Lemma missing_landmarks_skip_witness :
  missing Demo.frame_without_nose /\
  Forall missing [NoFace; Landmarks []; Demo.frame_without_nose] /\
  update Demo.tuning (init Demo.tuning) Demo.frame_without_nose
    = (init Demo.tuning, None) /\
  run Demo.tuning (init Demo.tuning) [NoFace; Landmarks []; Demo.frame_without_nose]
    = init Demo.tuning /\
  snapshots Demo.tuning (init Demo.tuning)
    [NoFace; Landmarks []; Demo.frame_without_nose] = [].
Proof.
  assert (H1 : missing Demo.frame_without_nose) by (exists NoseTip; reflexivity).
  assert (H2 : missing (Landmarks [])) by (exists NoseTip; reflexivity).
  assert (H3 : Forall missing [NoFace; Landmarks []; Demo.frame_without_nose]).
  { repeat constructor; assumption. }
  split; [exact H1|]. split; [exact H3|].
  exact (missing_landmarks_skip Demo.tuning (init Demo.tuning)
           Demo.frame_without_nose _ H1 H3).
Defined.

Lemma demo_scales_nonneg (movement gaze rapid_blink : bool) :
  0 <= decay_scale Demo.tuning movement gaze rapid_blink.
Proof. destruct movement, gaze, rapid_blink; cbn; lra. Defined.

Lemma confidence_within_bounds_witness :
  confidence (init Demo.tuning) = 100 /\
  Forall (fun snap => 20 <= Snapshot.confidence_score snap
                      /\ Snapshot.confidence_score snap <= 100)
         (snapshots Demo.tuning (init Demo.tuning)
            [Demo.frame (15 # 100); NoFace; Demo.frame (4 # 10)]) /\
  20 <= confidence (run Demo.tuning (init Demo.tuning)
                      [Demo.frame (15 # 100); NoFace; Demo.frame (4 # 10)]) /\
  confidence (run Demo.tuning (init Demo.tuning)
                [Demo.frame (15 # 100); NoFace; Demo.frame (4 # 10)]) <= 100.
Proof.
  exact (confidence_within_bounds Demo.tuning demo_scales_nonneg
           [Demo.frame (15 # 100); NoFace; Demo.frame (4 # 10)]).
Defined.

(** The scenarios of the specification: three frames at 0.15 and one at 0.4
    commit one blink, two frames at 0.15 and one at 0.4 commit none; frames
    that are skipped in between do not break the run. *)
Example three_closed_frames_commit :
  Snapshot.blink_count <$>
    snapshots Demo.tuning (init Demo.tuning)
      [Demo.frame (15 # 100); Demo.frame (15 # 100); Demo.frame (15 # 100);
       Demo.frame (4 # 10)]
  = [0; 0; 0; 1]%nat.
Proof. vm_compute. reflexivity. Qed.

Example two_closed_frames_do_not_commit :
  Snapshot.blink_count <$>
    snapshots Demo.tuning (init Demo.tuning)
      [Demo.frame (15 # 100); Demo.frame (15 # 100); Demo.frame (4 # 10)]
  = [0; 0; 0]%nat.
Proof. vm_compute. reflexivity. Qed.

(** A frame whose eyes have no width has no eye-aspect ratio: it is scored
    (a snapshot is emitted) but the blink machine is not stepped, so three
    such frames before an open one commit nothing, and one of them inside a
    closed run does not break the run. *)
Example degenerate_frames_are_not_closed :
  extract Demo.tuning Demo.frame_with_flat_eyes ≫= avg_ear = None /\
  Snapshot.blink_count <$>
    snapshots Demo.tuning (init Demo.tuning)
      [Demo.frame_with_flat_eyes; Demo.frame_with_flat_eyes;
       Demo.frame_with_flat_eyes; Demo.frame (4 # 10)]
  = [0; 0; 0; 0]%nat /\
  Snapshot.blink_count <$>
    snapshots Demo.tuning (init Demo.tuning)
      [Demo.frame (15 # 100); Demo.frame (15 # 100); Demo.frame_with_flat_eyes;
       Demo.frame (15 # 100); Demo.frame (4 # 10)]
  = [0; 0; 0; 0; 1]%nat.
Proof. vm_compute. repeat split; reflexivity. Qed.

Example skipped_frames_keep_the_run :
  blink_count
    (run Demo.tuning (init Demo.tuning)
       [Demo.frame (15 # 100); NoFace; Demo.frame (15 # 100);
        Demo.frame_without_nose; Demo.frame (15 # 100); Demo.frame (4 # 10)])
  = 1%nat.
Proof. vm_compute. reflexivity. Qed.

End EngineFacts.

(* ===================================================================== *)
(** ** What holds in every state of the session                           *)
(* ===================================================================== *)

Lemma computeLipSync_consistent (e m : Q) :
  lip_consistent (score (computeLipSync e m)) (status (computeLipSync e m)).
Proof.
  unfold computeLipSync, lip_consistent; cbn [score status].
  set (sc := Math_max 0 (100 - Math_abs (num_or0 m - e))).
  assert (H0 : 0 <= sc) by apply Math_max_lb_l.
  assert (H100 : sc <= 100).
  { apply Math_max_lub; [lra|]. pose proof (Math_abs_nonneg (num_or0 m - e)). lra. }
  split; [split; assumption|].
  destruct (num_gt sc 70) eqn:E70.
  - apply num_gt_true in E70. repeat split; intros; try done; lra.
  - apply num_gt_false in E70. destruct (num_gt sc 45) eqn:E45.
    + apply num_gt_true in E45. repeat split; intros; try done; lra.
    + apply num_gt_false in E45. repeat split; intros; try done; lra.
Qed.

Lemma lip_consistent_start : lip_consistent 100 "Synced".
Proof. unfold lip_consistent. repeat split; intros; try done; lra. Qed.

Lemma slice_last_Forall {A} (P : A -> Prop) (n : nat) (l : list A) :
  Forall P l -> Forall P (slice_last n l).
Proof. intros H. unfold slice_last. apply Forall_drop. exact H. Qed.

Lemma push_history_Forall (P : HistoryEntry -> Prop) (entry : HistoryEntry)
    (history : list HistoryEntry) :
  P entry -> Forall P history -> Forall P (push_history entry history).
Proof.
  intros He Hh. rewrite push_history_slice. apply slice_last_Forall.
  apply Forall_app. split; [exact Hh|]. constructor; [exact He|constructor].
Qed.

Lemma transcript_energy_range (x : Q) :
  0 <= Math_max 0 (Math_min 100 x) /\ Math_max 0 (Math_min 100 x) <= 100.
Proof.
  split; [apply Math_max_lb_l|].
  apply Math_max_lub; [lra|apply Math_min_ub_l].
Qed.

Lemma initial_inv (supported : bool) (now : Z) : app_inv (initial supported now).
Proof.
  unfold app_inv; cbn.
  split; [lra|]. split; [reflexivity|].
  split; [apply lip_consistent_start|constructor].
Qed.

Lemma step_inv (s : AppState) (e : Event) : app_inv s -> app_inv (step s e).
Proof.
  intros (Henergy & Hsame & Hlip & Hhist). destruct e; cbn [step].
  - unfold app_inv. cbn [listener speechEnergyRef speechEnergy lipSyncScore
                          lipSyncStatus metricsHistory].
    split; [exact Henergy|]. split; [exact Hsame|].
    split; [apply computeLipSync_consistent|].
    destruct (sessionActiveRef s); [|exact Hhist].
    apply push_history_Forall; [|exact Hhist].
    split; [|exact Henergy]. cbn [lip_sync_score].
    eexists. split; [reflexivity|].
    apply computeLipSync_consistent.
  - unfold handleEndSession. destruct (negb (sessionActiveRef s)); [done|].
    unfold app_inv; cbn. done.
  - unfold app_inv; cbn.
    split; [exact Henergy|]. split; [exact Hsame|].
    split; [apply lip_consistent_start|constructor].
  - unfold app_inv; cbn. done.
  - unfold transcriptEffect. destruct (transcriptStatsRef s) as [prevWords prevTime].
    unfold app_inv; cbn [speechEnergyRef speechEnergy lipSyncScore
                         lipSyncStatus metricsHistory].
    split; [apply transcript_energy_range|]. done.
Qed.

Lemma run_inv (events : list Event) (s : AppState) :
  app_inv s -> app_inv (run s events).
Proof.
  revert s. induction events as [|e events IH]; intros s H; [exact H|].
  cbn. apply IH. apply step_inv. exact H.
Qed.

Lemma reachable_inv (supported : bool) (now0 : Z) (events : list Event) :
  app_inv (run (initial supported now0) events).
Proof. apply run_inv, initial_inv. Qed.

(** X1: whatever happened since the first render, the speech energy kept in
    the state and in the ref is one number between 0 and 100; a transcript
    whose word count did not grow sets it to 0, and the effect records the
    new word count and time. *)
Theorem speech_energy_bounded (supported : bool) (now0 : Z) (events : list Event)
    (text : string) (words now : Z) :
  let s := run (initial supported now0) events in
  (0 <= speechEnergyRef s /\ speechEnergyRef s <= 100) /\
  speechEnergy s = speechEnergyRef s /\
  ((words <= fst (transcriptStatsRef s))%Z ->
   speechEnergyRef (transcriptEffect text words now s) == 0) /\
  transcriptStatsRef (transcriptEffect text words now s) = (words, now).
Proof.
  cbn zeta. set (s := run (initial supported now0) events).
  destruct (reachable_inv supported now0 events) as (He & Hs & _ & _).
  fold s in He, Hs.
  split; [exact He|]. split; [exact Hs|].
  unfold transcriptEffect. destruct (transcriptStatsRef s) as [prevWords prevTime].
  cbn [fst speechEnergyRef transcriptStatsRef]. split; [|reflexivity].
  intros Hle. replace (Z.max 0 (words - prevWords)) with 0%Z by lia.
  set (d := inject_Z (Z.max 500 _)).
  assert (E : inject_Z 0 / d * 60000 / 140 * 100 == 0).
  { unfold Qdiv. change (inject_Z 0) with 0. ring. }
  unfold Math_max, Math_min.
  repeat destruct (Qlt_le_dec _ _); lra.
Qed.

(** X2: in every state the lip-sync score lies in [0, 100] and the status
    shown with it is the one of that score: "Synced" above 70, "Loosely
    Synced" in (45, 70], "Off-sync" at 45 or below. *)
Theorem lip_sync_state_consistent (supported : bool) (now0 : Z)
    (events : list Event) :
  let s := run (initial supported now0) events in
  (0 <= lipSyncScore s /\ lipSyncScore s <= 100) /\
  (lipSyncStatus s = "Synced" <-> 70 < lipSyncScore s) /\
  (lipSyncStatus s = "Loosely Synced" <->
     45 < lipSyncScore s /\ lipSyncScore s <= 70) /\
  (lipSyncStatus s = "Off-sync" <-> lipSyncScore s <= 45).
Proof.
  cbn zeta.
  destruct (reachable_inv supported now0 events) as (_ & _ & Hlip & _).
  exact Hlip.
Qed.

(** X3: the red "lip sync looks off" notice is on screen exactly when the
    session is active and the current lip-sync score is 45 or less; it is
    never shown together with the "Session paused" cover. *)
Theorem off_sync_overlay_iff (supported : bool) (now0 : Z) (events : list Event) :
  let s := run (initial supported now0) events in
  (offSyncOverlay s = true <-> lipSyncScore s <= 45 /\ sessionActive s = true) /\
  (offSyncOverlay s && pausedOverlay s = false).
Proof.
  cbn zeta. set (s := run (initial supported now0) events).
  destruct (reachable_inv supported now0 events) as (_ & _ & Hlip & _).
  fold s in Hlip. destruct Hlip as (_ & _ & _ & Hoff).
  unfold offSyncOverlay, pausedOverlay. split.
  - rewrite andb_true_iff, String.eqb_eq, Hoff. reflexivity.
  - destruct (sessionActive s); [apply andb_false_r|].
    rewrite andb_false_r. reflexivity.
Qed.

(** X4: every entry of the history carries a numeric lip-sync score between
    0 and 100 and a speech energy between 0 and 100. *)
Theorem history_entries_well_formed (supported : bool) (now0 : Z)
    (events : list Event) :
  Forall (fun entry =>
            (exists q : Q, lip_sync_score entry = Val q /\ 0 <= q /\ q <= 100) /\
            0 <= speech_energy entry /\ speech_energy entry <= 100)
         (metricsHistory (run (initial supported now0) events)).
Proof.
  destruct (reachable_inv supported now0 events) as (_ & _ & _ & Hhist).
  exact Hhist.
Qed.

(* ===================================================================== *)
(** ** The fields of the summary                                          *)
(* ===================================================================== *)

Ltac summary_unfold :=
  unfold summary_of, summarizeHistory, Store.bind, Store.load_history;
  rewrite lookup_singleton_eq.

Ltac summary_steps :=
  cbv zeta; unfold Store.new_strings;
  repeat store_step; unfold Store.ret.

Lemma count_by_le {A} (p : A -> bool) (items : list A) :
  (count_by p items <= length items)%nat.
Proof. unfold count_by. apply filter_length_le. Qed.

Lemma last_cons_is_Some {A} (x : A) (l : list A) : exists y, last (x :: l) = Some y.
Proof.
  destruct (last (x :: l)) as [y|] eqn:E; [eauto|].
  apply last_None in E. discriminate.
Qed.

(** X5: summarizeHistory returns null exactly for the empty history; for
    any other history the attention is a percentage, the duration is at
    least one second, and neither the warnings nor the head-movement events
    outnumber the entries. *)
Theorem summary_fields_in_range (lip : Q) (items : list HistoryEntry)
    (answerStats : Stats.t) :
  match summary_of lip items answerStats with
  | None => items = []
  | Some r =>
    items <> [] /\
    (0 <= Summary.attention r <= 100)%Z /\
    1 <= Summary.durationSeconds r /\
    (Summary.warnings r <= length items)%nat /\
    (Summary.headMovementEvents r <= length items)%nat
  end.
Proof.
  destruct items as [|first rest]; [reflexivity|].
  destruct (last_cons_is_Some first rest) as [final Elast].
  summary_unfold. rewrite Elast. summary_steps.
  cbn [Summary.attention Summary.durationSeconds Summary.warnings
       Summary.headMovementEvents].
  split; [discriminate|]. split; [lia|].
  split; [apply Math_max_lb_l|].
  split; apply count_by_le.
Qed.

Lemma tips_of_cases (gaze blink posture : bool) :
  tips_of gaze blink posture <> [] /\
  (length (tips_of gaze blink posture) <= 3)%nat /\
  (In tip_solid (tips_of gaze blink posture) <->
   gaze = false /\ blink = false /\ posture = false) /\
  (In tip_gaze (tips_of gaze blink posture) <-> gaze = true) /\
  (In tip_blink (tips_of gaze blink posture) <-> blink = true) /\
  (In tip_posture (tips_of gaze blink posture) <-> posture = true).
Proof.
  destruct gaze, blink, posture; vm_compute;
    repeat split; intros; try discriminate; try lia; try tauto;
    repeat match goal with
           | H : _ \/ _ |- _ => destruct H
           | H : False |- _ => destruct H
           | H : _ /\ _ |- _ => destruct H
           end; try discriminate.
Qed.

(** X6: the summary of a non-empty history always carries between one and
    three coaching tips: the gaze tip exactly when the attention is below 70,
    the blink tip exactly when the blink rate exceeds 25, the posture tip
    exactly when more than 10 head-movement events were counted, and the
    "Solid session" tip exactly when none of the three applies. *)
Theorem summary_suggestions (lip : Q) (first : HistoryEntry)
    (rest : list HistoryEntry) (answerStats : Stats.t) :
  exists r : Summary.t,
    summary_of lip (first :: rest) answerStats = Some r /\
    Summary.suggestions r <> [] /\
    (length (Summary.suggestions r) <= 3)%nat /\
    (In tip_gaze (Summary.suggestions r) <-> (Summary.attention r < 70)%Z) /\
    (In tip_blink (Summary.suggestions r) <-> 25 < Summary.blinkRate r) /\
    (In tip_posture (Summary.suggestions r) <->
       (10 < Summary.headMovementEvents r)%nat) /\
    (In tip_solid (Summary.suggestions r) <->
       (70 <= Summary.attention r)%Z /\ Summary.blinkRate r <= 25
       /\ (Summary.headMovementEvents r <= 10)%nat).
Proof.
  destruct (last_cons_is_Some first rest) as [final Elast].
  summary_unfold. rewrite Elast. summary_steps.
  eexists. split; [reflexivity|].
  cbn [Summary.attention Summary.blinkRate Summary.headMovementEvents
       Summary.suggestions].
  match goal with
  | |- context [Z.ltb ?a 70] => set (att := a)
  end.
  match goal with
  | |- context [num_gt ?b 25] => set (rate := b)
  end.
  set (hme := count_by excessive_head (first :: rest)).
  match goal with
  | |- context [?t <> []] => set (tips := t)
  end.
  assert (Etips : tips = tips_of (att <? 70)%Z (num_gt rate 25) (10 <? hme)%nat).
  { subst tips.
    destruct (att <? 70)%Z, (num_gt rate 25), (10 <? hme)%nat; reflexivity. }
  rewrite Etips.
  destruct (tips_of_cases (att <? 70)%Z (num_gt rate 25) (10 <? hme)%nat)
    as (Hne & Hlen & Hsolid & Hgaze & Hblink & Hposture).
  split; [exact Hne|]. split; [exact Hlen|].
  split; [rewrite Hgaze; apply Z.ltb_lt|].
  split; [rewrite Hblink; apply num_gt_true|].
  split; [rewrite Hposture; apply Nat.ltb_lt|].
  rewrite Hsolid, Z.ltb_ge, num_gt_false, Nat.ltb_ge. reflexivity.
Qed.

(* ===================================================================== *)
(** ** Averages and percentages                                           *)
(* ===================================================================== *)

Lemma of_nat_S (n : nat) : of_nat (S n) == of_nat n + 1.
Proof.
  unfold of_nat. rewrite Nat2Z.inj_succ, <- Z.add_1_r, inject_Z_plus. reflexivity.
Qed.

Lemma of_nat_pos (n : nat) : (0 < n)%nat -> 0 < of_nat n.
Proof.
  intros H. unfold of_nat. change 0 with (inject_Z 0).
  rewrite <- Zlt_Qlt. lia.
Qed.

Lemma of_nat_nonneg (n : nat) : 0 <= of_nat n.
Proof.
  unfold of_nat. change 0 with (inject_Z 0). rewrite <- Zle_Qle. lia.
Qed.

Lemma fold_sum_bounds {A} (f : A -> Q) (lo hi : Q) (items : list A) (a : Q) :
  Forall (fun x => lo <= f x /\ f x <= hi) items ->
  a + of_nat (length items) * lo <= fold_left (fun sum item => sum + f item) items a /\
  fold_left (fun sum item => sum + f item) items a <= a + of_nat (length items) * hi.
Proof.
  intros H. revert a. induction H as [|x items [Hlo Hhi] _ IH]; intros a.
  - cbn [fold_left length]. change (of_nat 0) with 0. lra.
  - cbn [fold_left length]. destruct (IH (a + f x)) as [IH1 IH2].
    rewrite of_nat_S. split; nra.
Qed.

Lemma mean_bounds {A} (f : A -> Q) (lo hi : Q) (items : list A) :
  items <> [] ->
  Forall (fun x => lo <= f x /\ f x <= hi) items ->
  lo <= sum_by f items / of_nat (length items) /\
  sum_by f items / of_nat (length items) <= hi.
Proof.
  intros Hne H.
  assert (Hpos : 0 < of_nat (length items)).
  { apply of_nat_pos. destruct items; [done|cbn; lia]. }
  destruct (fold_sum_bounds f lo hi items 0 H) as [H1 H2].
  fold (sum_by f items) in H1, H2. split.
  - apply Qle_shift_div_l; [exact Hpos|]. lra.
  - apply Qle_shift_div_r; [exact Hpos|]. lra.
Qed.

Lemma mean_or_bounds (values : list Q) (fallback lo hi : Q) :
  Forall (fun v => lo <= v /\ v <= hi) values ->
  lo <= fallback /\ fallback <= hi ->
  lo <= mean_or values fallback /\ mean_or values fallback <= hi.
Proof.
  intros H Hf. unfold mean_or.
  destruct (0 <? length values)%nat eqn:E; [|exact Hf].
  apply Nat.ltb_lt in E. apply mean_bounds; [|exact H].
  destruct values; [cbn in E; lia|done].
Qed.

Lemma mean_or_nonempty (values : list Q) (a b : Q) :
  values <> [] -> mean_or values a = mean_or values b.
Proof. intros H. unfold mean_or. destruct values; [done|reflexivity]. Qed.

Lemma numbers_of_Forall {A} (f : A -> field Q) (P : Q -> Prop) (items : list A) :
  Forall (fun x => forall v, f x = Val v -> P v) items ->
  Forall P (numbers_of f items).
Proof.
  intros H. unfold numbers_of. induction H as [|x items Hx _ IH]; cbn; [constructor|].
  destruct (f x) as [| |v] eqn:E; cbn; try exact IH.
  constructor; [apply Hx; reflexivity|exact IH].
Qed.

Lemma Math_round_percent (x : Q) :
  0 <= x /\ x <= 100 -> (0 <= Math_round x <= 100)%Z.
Proof.
  intros [H0 H100]. unfold Math_round. split.
  - change 0%Z with (Qfloor (0 + (1 # 2))). apply Qfloor_resp_le. lra.
  - change 100%Z with (Qfloor (100 + (1 # 2))). apply Qfloor_resp_le. lra.
Qed.

Lemma inject_Z_percent (z : Z) : (0 <= z <= 100)%Z -> 0 <= inject_Z z /\ inject_Z z <= 100.
Proof.
  intros [H0 H100]. change 0 with (inject_Z 0). change 100 with (inject_Z 100).
  rewrite <- !Zle_Qle. done.
Qed.

Lemma entry_ok_numbers (items : list HistoryEntry) :
  items <> [] -> Forall entry_ok items -> numbers_of lip_sync_score items <> [].
Proof.
  intros Hne H. destruct H as [|x items [(q & Hq & _) _] _]; [done|].
  unfold numbers_of. cbn. rewrite Hq. cbn. discriminate.
Qed.

Lemma summary_of_fallback (lip1 lip2 : Q) (items : list HistoryEntry)
    (answerStats : Stats.t) :
  Forall entry_ok items ->
  summary_of lip1 items answerStats = summary_of lip2 items answerStats.
Proof.
  intros H. destruct items as [|first rest]; [reflexivity|].
  destruct (last_cons_is_Some first rest) as [final Elast].
  summary_unfold. rewrite Elast. summary_steps.
  rewrite (mean_or_nonempty _ lip1 lip2); [reflexivity|].
  apply entry_ok_numbers; [discriminate|exact H].
Qed.

(** X7: for the history the component has collected, the result of
    summarizeHistory does not depend on the lip-sync score the callback
    closed over: every entry carries its own numeric lip_sync_score, so the
    fallback is never used; consequently the summary set by handleEndSession
    is the same whatever the current lip-sync score is, and its lip-sync
    average is a percentage. *)
Theorem summary_ignores_fallback (supported : bool) (now0 : Z)
    (events : list Event) (lip1 lip2 : Q) (answerStats : Stats.t) :
  let history := metricsHistory (run (initial supported now0) events) in
  summary_of lip1 history answerStats = summary_of lip2 history answerStats /\
  match summary_of lip1 history answerStats with
  | Some r => (0 <= Summary.lipSyncAverage r <= 100)%Z
  | None => history = []
  end.
Proof.
  cbn zeta.
  destruct (reachable_inv supported now0 events) as (_ & _ & _ & Hhist).
  set (history := metricsHistory (run (initial supported now0) events)) in *.
  split; [apply summary_of_fallback; exact Hhist|].
  destruct history as [|first rest] eqn:Eh; [reflexivity|].
  destruct (last_cons_is_Some first rest) as [final Elast].
  assert (Hne : numbers_of lip_sync_score (first :: rest) <> []).
  { apply entry_ok_numbers; [discriminate|exact Hhist]. }
  summary_unfold. rewrite Elast. summary_steps. cbn [Summary.lipSyncAverage].
  apply Math_round_percent.
  rewrite (mean_or_nonempty _ lip1 0 Hne).
  apply mean_or_bounds; [|lra].
  apply numbers_of_Forall.
  eapply Forall_impl; [exact Hhist|].
  intros entry [(q & Hq & H0 & H100) _] v Hv.
  rewrite Hq in Hv. injection Hv as <-. done.
Qed.

(** X8: when the confidence, mood and lip-sync scores of the entries and the
    three answer scores are percentages, so are the composite score and the
    rounded averages of the summary: the seven weights of the composite add
    up to one. *)
Theorem summary_scores_are_percentages (lip : Q) (items : list HistoryEntry)
    (answerStats : Stats.t) :
  Forall entry_in_range items ->
  percent lip ->
  percent (Stats.sampleScore answerStats) ->
  percent (Stats.noveltyScore answerStats) ->
  percent (Stats.matchScore answerStats) ->
  match summary_of lip items answerStats with
  | None => items = []
  | Some r =>
    (0 <= Summary.compositeScore r <= 100)%Z /\
    (0 <= Summary.avgConfidence r <= 100)%Z /\
    (0 <= Summary.avgMood r <= 100)%Z /\
    (0 <= Summary.lipSyncAverage r <= 100)%Z /\
    (0 <= Summary.sampleScore r <= 100)%Z /\
    (0 <= Summary.noveltyScore r <= 100)%Z /\
    (0 <= Summary.matchScore r <= 100)%Z
  end.
Proof.
  intros Hitems Hlip Hs Hn Hm.
  destruct items as [|first rest]; [reflexivity|].
  destruct (last_cons_is_Some first rest) as [final Elast].
  summary_unfold. rewrite Elast. summary_steps.
  cbn [Summary.compositeScore Summary.avgConfidence Summary.avgMood
       Summary.lipSyncAverage Summary.sampleScore Summary.noveltyScore
       Summary.matchScore].
  set (items := first :: rest) in *.
  assert (Hconf : percent (sum_by (fun item => or0 (confidence_score (snapshot item))) items
                           / of_nat (length items))).
  { apply mean_bounds; [discriminate|].
    eapply Forall_impl; [exact Hitems|]. intros e (H & _ & _). exact H. }
  assert (Hmood : percent (mean_or (numbers_of (fun item => mood_score (snapshot item)) items) 60)).
  { apply mean_or_bounds; [|lra]. apply numbers_of_Forall.
    eapply Forall_impl; [exact Hitems|]. intros e (_ & H & _). exact H. }
  assert (Hsync : percent (mean_or (numbers_of lip_sync_score items) lip)).
  { apply mean_or_bounds; [|exact Hlip]. apply numbers_of_Forall.
    eapply Forall_impl; [exact Hitems|]. intros e (_ & _ & H). exact H. }
  assert (Hss : percent (num_or0 (Stats.sampleScore answerStats))).
  { unfold percent. rewrite num_or0_eq. exact Hs. }
  assert (Hns : percent (num_or0 (Stats.noveltyScore answerStats))).
  { unfold percent. rewrite num_or0_eq. exact Hn. }
  assert (Hms : percent (num_or0 (Stats.matchScore answerStats))).
  { unfold percent. rewrite num_or0_eq. exact Hm. }
  match goal with
  | |- context [inject_Z ?a * (18 # 100)] =>
    assert (Hatt : percent (inject_Z a)) by (apply inject_Z_percent; lia);
    set (att := inject_Z a) in *
  end.
  match goal with
  | |- context [Math_max 0 ?w * (5 # 100)] =>
    assert (Hw : percent (Math_max 0 w));
    [split; [apply Math_max_lb_l|apply Math_max_lub;
       [lra|pose proof (of_nat_nonneg (count_by (fun item => truthy_str (warning (snapshot item))) items)); lra]]|];
    set (wscore := Math_max 0 w) in *
  end.
  unfold percent in *.
  repeat split; try (apply Math_round_percent; split; lra).
Qed.

Lemma summary_scores_are_percentages_witness :
  match summary_of 100 sample_history (Stats.Build_t 60 40 75) with
  | None => sample_history = []
  | Some r =>
    (0 <= Summary.compositeScore r <= 100)%Z /\
    (0 <= Summary.avgConfidence r <= 100)%Z /\
    (0 <= Summary.avgMood r <= 100)%Z /\
    (0 <= Summary.lipSyncAverage r <= 100)%Z /\
    (0 <= Summary.sampleScore r <= 100)%Z /\
    (0 <= Summary.noveltyScore r <= 100)%Z /\
    (0 <= Summary.matchScore r <= 100)%Z
  end.
Proof.
  apply (summary_scores_are_percentages 100 sample_history (Stats.Build_t 60 40 75)).
  - constructor; [|constructor]. split; [|split].
    + split; vm_compute; discriminate.
    + intros v H. vm_compute in H. discriminate H.
    + intros v H. vm_compute in H. injection H as <-.
      split; vm_compute; discriminate.
  - unfold percent. lra.
  - unfold percent; cbn; lra.
  - unfold percent; cbn; lra.
  - unfold percent; cbn; lra.
Defined.

(* ===================================================================== *)
(** ** The live analytics panel                                           *)
(* ===================================================================== *)

Lemma slice_last_length_min {A} (n : nat) (l : list A) :
  length (slice_last n l) = Nat.min n (length l).
Proof. unfold slice_last. rewrite length_drop. lia. Qed.

(** X9: the analytics panel shows its placeholder exactly for the empty
    history; otherwise the attention score is a percentage, the trend has
    one bar for each of the last 24 entries (all of them when there are
    fewer), every value of the trend is a percentage and every bar is
    between 6 and 100 percent high. *)
Theorem analytics_panel_in_range (history : list HistoryEntry) :
  match AnalyticsPanel history with
  | None => history = []
  | Some a =>
    history <> [] /\
    (0 <= Analytics.attentionScore a <= 100)%Z /\
    (Analytics.warnings a <= length history)%nat /\
    length (Analytics.trend a) = Nat.min 24 (length history) /\
    length (Analytics.heights a) = length (Analytics.trend a) /\
    Forall (fun value => 0 <= value /\ value <= 100) (Analytics.trend a) /\
    Forall (fun height => 6 <= height /\ height <= 100) (Analytics.heights a)
  end.
Proof.
  destruct history as [|first rest]; [reflexivity|].
  destruct (last_cons_is_Some first rest) as [final Elast].
  unfold AnalyticsPanel. rewrite Elast. cbv zeta.
  cbn [Analytics.attentionScore Analytics.warnings Analytics.trend Analytics.heights].
  split; [discriminate|]. split; [lia|]. split; [apply count_by_le|].
  split; [rewrite length_map; apply slice_last_length_min|].
  split; [apply length_map|].
  assert (Htrend : forall l : list HistoryEntry,
            Forall (fun value => 0 <= value /\ value <= 100)
              (map (fun item => Math_max 0 (Math_min 100
                      (or0 (confidence_score (snapshot item))))) l)).
  { intros l. apply Forall_map. apply Forall_forall. intros item _.
    apply transcript_energy_range. }
  split; [apply Htrend|].
  apply Forall_map. eapply Forall_impl; [apply Htrend|].
  intros value [H0 H100]. cbn. split; [apply Math_max_lb_l|].
  apply Math_max_lub; lra.
Qed.

Lemma fold_sum_nonneg {A} (f : A -> Q) (items : list A) (a : Q) :
  Forall (fun x => 0 <= f x) items ->
  a <= fold_left (fun sum item => sum + f item) items a.
Proof.
  intros H. revert a. induction H as [|x items Hx _ IH]; intros a; [cbn; lra|].
  cbn [fold_left]. specialize (IH (a + f x)). lra.
Qed.

Lemma mean_nonneg {A} (f : A -> Q) (items : list A) :
  Forall (fun x => 0 <= f x) items ->
  0 <= sum_by f items / of_nat (length items).
Proof.
  intros H. pose proof (fold_sum_nonneg f items 0 H) as Hsum.
  fold (sum_by f items) in Hsum.
  destruct items as [|x items].
  - cbn. discriminate.
  - apply Qle_shift_div_l; [apply of_nat_pos; cbn; lia|lra].
Qed.

(** X10: on the same non-empty history the analytics panel and the summary
    report the same blink rate, the same number of warnings and the same
    rounded average confidence; when no gaze deviation is negative the
    attention of the summary is never above the attention score of the
    panel (the summary weighs warnings and gaze more heavily). *)
Theorem analytics_agrees_with_summary (lip : Q) (first : HistoryEntry)
    (rest : list HistoryEntry) (answerStats : Stats.t) :
  exists (r : Summary.t) (a : Analytics.t),
    summary_of lip (first :: rest) answerStats = Some r /\
    AnalyticsPanel (first :: rest) = Some a /\
    Summary.blinkRate r = Analytics.blinkRate a /\
    Summary.warnings r = Analytics.warnings a /\
    Summary.avgConfidence r = Analytics.avgConfidence a /\
    (Forall (fun item => 0 <= or0 (gaze_deviation (snapshot item))) (first :: rest) ->
     (Summary.attention r <= Analytics.attentionScore a)%Z).
Proof.
  destruct (last_cons_is_Some first rest) as [final Elast].
  summary_unfold. unfold AnalyticsPanel. rewrite Elast. summary_steps. cbv zeta.
  eexists _, _. split; [reflexivity|]. split; [reflexivity|].
  cbn [Summary.blinkRate Summary.warnings Summary.avgConfidence Summary.attention
       Analytics.blinkRate Analytics.warnings Analytics.avgConfidence
       Analytics.attentionScore].
  split; [|split; [reflexivity|split; [reflexivity|]]].
  - destruct (0 <? timestamp final - timestamp first)%Z eqn:E.
    + apply Z.ltb_lt in E. rewrite Z.max_r by lia.
      apply Z.ltb_lt in E. rewrite E. reflexivity.
    + apply Z.ltb_ge in E. rewrite Z.max_l by lia. reflexivity.
  - intros Hgaze.
    apply Z.max_le_compat_l, Z.min_le_compat_l.
    unfold Math_round. apply Qfloor_resp_le.
    pose proof (mean_nonneg _ _ Hgaze) as Hg.
    pose proof (of_nat_nonneg (count_by (fun item => truthy_str (warning (snapshot item)))
                                 (first :: rest))) as Hw.
    lra.
Qed.

(** X11: the lip-sync panel shows the status in green exactly when the
    current score is above 70, in yellow exactly when it is in (45, 70] and
    in red exactly when it is 45 or less; the rounded score and energy it
    prints are percentages and its bar is max(8, score) percent wide. *)
Theorem lip_sync_panel_view (supported : bool) (now0 : Z) (events : list Event) :
  let s := run (initial supported now0) events in
  let v := lipSyncPanel_of s in
  (LipSyncPanel.statusColor v = "text-emerald-300" <-> 70 < lipSyncScore s) /\
  (LipSyncPanel.statusColor v = "text-yellow-200" <->
     45 < lipSyncScore s /\ lipSyncScore s <= 70) /\
  (LipSyncPanel.statusColor v = "text-red-300" <-> lipSyncScore s <= 45) /\
  (0 <= LipSyncPanel.shownScore v <= 100)%Z /\
  (0 <= LipSyncPanel.shownEnergy v <= 100)%Z /\
  LipSyncPanel.barWidth v == Math_max 8 (lipSyncScore s) /\
  8 <= LipSyncPanel.barWidth v /\ LipSyncPanel.barWidth v <= 100.
Proof.
  cbn zeta. set (s := run (initial supported now0) events).
  destruct (reachable_inv supported now0 events)
    as (Henergy & Hsame & ((H0 & H100) & Hsynced & Hloose & Hoff) & _).
  fold s in Henergy, Hsame, H0, H100, Hsynced, Hloose, Hoff.
  unfold lipSyncPanel_of, lipSyncPanel.
  cbn [LipSyncPanel.statusColor LipSyncPanel.shownScore LipSyncPanel.shownEnergy
       LipSyncPanel.barWidth].
  assert (Hcolor :
    (String.eqb (lipSyncStatus s) "Synced" = true /\ 70 < lipSyncScore s) \/
    (String.eqb (lipSyncStatus s) "Synced" = false /\
     String.eqb (lipSyncStatus s) "Loosely Synced" = true /\
     45 < lipSyncScore s /\ lipSyncScore s <= 70) \/
    (String.eqb (lipSyncStatus s) "Synced" = false /\
     String.eqb (lipSyncStatus s) "Loosely Synced" = false /\
     lipSyncScore s <= 45)).
  { destruct (String.eqb (lipSyncStatus s) "Synced") eqn:E1.
    - left. split; [reflexivity|]. apply Hsynced, String.eqb_eq, E1.
    - right. apply String.eqb_neq in E1.
      destruct (String.eqb (lipSyncStatus s) "Loosely Synced") eqn:E2.
      + left. repeat split; apply Hloose, String.eqb_eq, E2.
      + right. repeat split. apply String.eqb_neq in E2.
        destruct (Qlt_le_dec 45 (lipSyncScore s)) as [Hgt|Hle]; [|exact Hle].
        destruct (Qlt_le_dec 70 (lipSyncScore s)) as [Hgt'|Hle'].
        * exfalso. apply E1, Hsynced, Hgt'.
        * exfalso. apply E2, Hloose. split; assumption. }
  split; [|split; [|split]].
  - destruct Hcolor as [[-> H]|[(-> & -> & H & H')|(-> & -> & H)]];
      split; intros; try done; lra.
  - destruct Hcolor as [[-> H]|[(-> & -> & H & H')|(-> & -> & H)]];
      split; intros; try done; lra.
  - destruct Hcolor as [[-> H]|[(-> & -> & H & H')|(-> & -> & H)]];
      split; intros; try done; lra.
  - split; [apply Math_round_percent; split; assumption|].
    split; [rewrite Hsame; apply Math_round_percent; exact Henergy|].
    unfold Math_max, Math_min.
    repeat destruct (Qlt_le_dec _ _); repeat split; lra.
Qed.

(* ===================================================================== *)
(** ** Ending, restarting and merging                                     *)
(* ===================================================================== *)

(** X12: pressing "End Session" twice has the effect of pressing it once,
    also when the effect on [sessionActive] ran in between; on a session
    whose ref is already off the handler changes nothing. *)
Theorem end_session_idempotent (s : AppState) :
  handleEndSession (handleEndSession s) = handleEndSession s /\
  (sessionActiveRef s = true ->
   handleEndSession (syncSessionRef (handleEndSession s))
     = syncSessionRef (handleEndSession s)) /\
  (sessionActiveRef s = false -> handleEndSession s = s).
Proof.
  destruct (sessionActiveRef s) eqn:E.
  - split; [|split; [intros _|discriminate]].
    + unfold handleEndSession. rewrite E. cbn. reflexivity.
    + unfold handleEndSession. rewrite E. reflexivity.
  - assert (H : handleEndSession s = s).
    { unfold handleEndSession. rewrite E. reflexivity. }
    rewrite !H. split; [reflexivity|]. split; [discriminate|reflexivity].
Qed.

(** X13: after a restart the history is collected afresh: once the effect
    has switched the ref on, the first payload yields a history of exactly
    one entry, built from the reset metrics; a payload that arrives before
    the effect, while the ref is still off, is not recorded. *)
Theorem restart_resumes_recording (s : AppState) (payload : option Metrics) (now : Z) :
  let fresh := syncSessionRef (handleRestart s) in
  metricsHistory (run s [Restart; SessionEffect; Analysis payload now])
    = [history_entry payload now fresh] /\
  snapshot (history_entry payload now fresh) = spread initial_metrics payload /\
  (sessionActiveRef s = false ->
   metricsHistory (run s [Restart; Analysis payload now]) = []) /\
  sessionSummary (run s [Restart; SessionEffect; Analysis payload now]) = None.
Proof.
  cbn zeta. split; [reflexivity|]. split; [reflexivity|]. split; [|reflexivity].
  intros Hoff. cbn [run fold_left step].
  rewrite listener_history. cbn [handleRestart sessionActiveRef metricsHistory].
  rewrite Hoff. reflexivity.
Qed.

Lemma run_analyses_metrics (ps : list (option Metrics * Z)) (s : AppState) :
  metrics (run s (analyses ps)) = merge_payloads (metrics s) ps.
Proof.
  revert s. induction ps as [|[payload now] ps IH]; intros s; [reflexivity|].
  cbn [analyses map run fold_left step fst snd merge_payloads].
  change (fold_left step (map _ ps) ?x) with (run x (analyses ps)).
  rewrite IH. reflexivity.
Qed.

(** X14: the live metrics after any payloads are the left-to-right merge of
    the payloads into the metrics before them, whether or not the session is
    active; a property no payload carries keeps its value, so a warning or a
    micro-expression text stays on screen until a payload brings that key
    again. *)
Theorem metrics_are_merged_payloads (s : AppState) (ps : list (option Metrics * Z)) :
  metrics (run s (analyses ps)) = merge_payloads (metrics s) ps /\
  (Forall (fun p => match fst p with
                    | Some m => warning m = Absent
                    | None => True
                    end) ps ->
   warning (metrics (run s (analyses ps))) = warning (metrics s)) /\
  (Forall (fun p => match fst p with
                    | Some m => microexpression m = Absent
                    | None => True
                    end) ps ->
   microexpression (metrics (run s (analyses ps))) = microexpression (metrics s)).
Proof.
  split; [apply run_analyses_metrics|].
  rewrite run_analyses_metrics. generalize (metrics s) as m.
  induction ps as [|[payload now] ps IH]; intros m; [done|].
  cbn [merge_payloads fold_left fst].
  change (fold_left _ ps ?x) with (merge_payloads x ps).
  destruct (IH (spread m payload)) as [IHw IHm]. split.
  - intros H. inversion H as [|? ? Hp Hps]; subst. rewrite (IHw Hps).
    destruct payload as [p|]; [|reflexivity]. cbn in Hp |- *. rewrite Hp. reflexivity.
  - intros H. inversion H as [|? ? Hp Hps]; subst. rewrite (IHm Hps).
    destruct payload as [p|]; [|reflexivity]. cbn in Hp |- *. rewrite Hp. reflexivity.
Qed.

(* ===================================================================== *)
(** ** The question bank                                                  *)
(* ===================================================================== *)

Lemma cycles_spec (n : nat) (b : QuestionBank) (s : AppState) :
  questions (fst (cycles n b s)) = questions b /\
  questionIndex (fst (cycles (S n) b s)) =
    (if (0 <? length (questions b))%nat
     then ((questionIndex b + S n) mod length (questions b))%nat else 0%nat) /\
  metrics (snd (cycles n b s)) = metrics s /\
  metricsHistory (snd (cycles n b s)) = metricsHistory s /\
  sessionSummary (snd (cycles n b s)) = sessionSummary s.
Proof.
  revert b s. induction n as [|n IH]; intros b s.
  - cbn. unfold next_index. rewrite Nat.add_1_r. done.
  - destruct (IH (fst (cycleQuestion b s)) (snd (cycleQuestion b s)))
      as (Hq & Hi & Hm & Hh & Hs).
    change (cycles (S n) b s)
      with (cycles n (fst (cycleQuestion b s)) (snd (cycleQuestion b s))).
    change (cycles (S (S n)) b s)
      with (cycles (S n) (fst (cycleQuestion b s)) (snd (cycleQuestion b s))).
    rewrite Hq, Hi, Hm, Hh, Hs. cbn [cycleQuestion fst snd questions questionIndex].
    repeat split; try reflexivity.
    unfold next_index. destruct (0 <? length (questions b))%nat eqn:E; [|reflexivity].
    apply Nat.ltb_lt in E.
    rewrite Nat.Div0.add_mod_idemp_l. f_equal. lia.
Qed.

(** X15: "Next Question" moves through the questions in order and wraps
    around: after n+1 presses the index is (index + n + 1) modulo the number
    of questions (0 when there is none), hence a valid index even when it
    was stale before; pressing once per question comes back to the same
    question; the metrics, the history and the summary of the session are
    never touched, while the answer scores are reset. *)
Theorem cycle_question_wraps (n : nat) (b : QuestionBank) (s : AppState) :
  let count := length (questions b) in
  let b' := fst (cycles (S n) b s) in
  let s' := snd (cycles (S n) b s) in
  questions b' = questions b /\
  questionIndex b' =
    (if (0 <? count)%nat then ((questionIndex b + S n) mod count)%nat else 0%nat) /\
  ((0 < count)%nat -> (questionIndex b' < count)%nat) /\
  ((questionIndex b < count)%nat ->
   questionIndex (fst (cycles count b s)) = questionIndex b) /\
  (metrics s' = metrics s /\ metricsHistory s' = metricsHistory s
   /\ sessionSummary s' = sessionSummary s) /\
  (matchScore s' = 0 /\ sampleScore s' = 0 /\ noveltyScore s' = 0
   /\ missingKeywords s' = [] /\ showSampleAnswer s' = false).
Proof.
  cbn zeta.
  destruct (cycles_spec (S n) b s) as (Hq & _ & Hm & Hh & Hs).
  destruct (cycles_spec n b s) as (_ & Hi & _ & _ & _).
  split; [exact Hq|]. split; [exact Hi|]. split; [|split; [|split]].
  - intros Hpos. rewrite Hi.
    destruct (0 <? length (questions b))%nat eqn:E; [|apply Nat.ltb_ge in E; lia].
    apply Nat.mod_upper_bound. lia.
  - intros Hlt. destruct (length (questions b)) as [|k] eqn:Ek; [lia|].
    destruct (cycles_spec k b s) as (_ & Hk & _ & _ & _).
    rewrite Hk, Ek. cbn [Nat.ltb Nat.leb].
    replace (questionIndex b + S k)%nat with (questionIndex b + 1 * S k)%nat by lia.
    rewrite Nat.Div0.mod_add. apply Nat.mod_small. exact Hlt.
  - done.
  - clear. revert b s. induction n as [|n IH]; intros b s; [done|].
    change (cycles (S (S n)) b s)
      with (cycles (S n) (fst (cycleQuestion b s)) (snd (cycleQuestion b s))).
    apply IH.
Qed.

Lemma findIndex_Some {A} (p : A -> bool) (l : list A) (i : nat) :
  findIndex p l = Some i ->
  (exists x, l !! i = Some x /\ p x = true) /\
  (forall j y, (j < i)%nat -> l !! j = Some y -> p y = false).
Proof.
  revert i. induction l as [|x l IH]; intros i; cbn; [discriminate|].
  destruct (p x) eqn:E.
  - intros [= <-]. split; [eauto|]. intros; lia.
  - destruct (findIndex p l) as [k|]; cbn; [|discriminate].
    intros [= <-]. destruct (IH k eq_refl) as [Hx Hbefore]. split; [exact Hx|].
    intros [|j] y Hj; cbn.
    + intros [= <-]. exact E.
    + apply Hbefore. lia.
Qed.

Lemma findIndex_None {A} (p : A -> bool) (l : list A) :
  findIndex p l = None <-> Forall (fun x => p x = false) l.
Proof.
  induction l as [|x l IH]; cbn; [split; [constructor|reflexivity]|].
  destruct (p x) eqn:E.
  - split; [discriminate|]. intros H. inversion H; congruence.
  - destruct (findIndex p l) as [k|]; cbn.
    + split; [discriminate|]. intros H. inversion H as [|? ? _ Hl]; subst.
      apply IH in Hl. discriminate.
    + split; [|reflexivity]. intros _. constructor; [exact E|]. apply IH. reflexivity.
Qed.

(** X16: after a question was created, the questions are the refetched list
    and the index points at the first question of that list with the id of
    the created one; when the list has none, the index is that of the last
    question (0 for an empty list).  The index is valid whenever the list is
    not empty. *)
Theorem create_question_selects_it (created : Question.t)
    (list : list Question.t) (s : AppState) :
  let b := fst (handleCreateQuestion created list s) in
  questions b = list /\
  (list <> [] -> (questionIndex b < length list)%nat) /\
  (Exists (fun q => Question.id q = Question.id created) list ->
   exists q, list !! questionIndex b = Some q
             /\ Question.id q = Question.id created
             /\ forall j q', (j < questionIndex b)%nat -> list !! j = Some q' ->
                  Question.id q' <> Question.id created) /\
  (Forall (fun q => Question.id q <> Question.id created) list ->
   questionIndex b = (length list - 1)%nat).
Proof.
  cbn zeta. unfold handleCreateQuestion. cbn [fst questions questionIndex].
  set (p := fun q : Question.t => (Question.id q =? Question.id created)%Z).
  split; [reflexivity|].
  destruct (findIndex p list) as [i|] eqn:E.
  - destruct (findIndex_Some p list i E) as [(x & Hx & Hpx) Hbefore].
    split; [|split].
    + intros _. eapply lookup_lt_Some. exact Hx.
    + intros _. exists x. split; [exact Hx|]. split; [apply Z.eqb_eq; exact Hpx|].
      intros j q' Hj Hq'. apply Z.eqb_neq. apply (Hbefore j q' Hj Hq').
    + intros Hall. rewrite Forall_forall in Hall.
      exfalso. apply (Hall x); [eapply list_elem_of_lookup_2; exact Hx|].
      apply Z.eqb_eq. exact Hpx.
  - apply findIndex_None in E. split; [|split].
    + intros Hne. destruct list; [done|]. cbn. lia.
    + intros Hex. exfalso. rewrite Exists_exists in Hex.
      destruct Hex as (q & Hin & Hid). rewrite Forall_forall in E.
      specialize (E q Hin). unfold p in E. apply Z.eqb_neq in E. contradiction.
    + intros _. lia.
Qed.

(* ===================================================================== *)
(** ** The keywords of a new question                                     *)
(* ===================================================================== *)

Module JsStringFacts.
Import JsString.

Lemma trimStart_suffix (s : t) :
  exists sp, s = sp ++ trimStart s /\ spaces sp.
Proof.
  induction s as [|c s (sp & Hs & Hsp)]; cbn.
  - exists []. split; [reflexivity|constructor].
  - destruct (is_space c) eqn:E.
    + exists (c :: sp). split; [cbn; congruence|constructor; assumption].
    + exists []. split; [reflexivity|constructor].
Qed.

Lemma trimStart_head (s : t) (c : N) :
  head (trimStart s) = Some c -> is_space c = false.
Proof.
  induction s as [|d s IH]; cbn; [discriminate|].
  destruct (is_space d) eqn:E; [exact IH|]. cbn. intros [= <-]. exact E.
Qed.

Lemma trimStart_nil (s : t) : trimStart s = [] <-> spaces s.
Proof.
  induction s as [|c s IH]; cbn; [split; [constructor|reflexivity]|].
  destruct (is_space c) eqn:E.
  - rewrite IH. split; [intros H; constructor; assumption|].
    intros H. inversion H; assumption.
  - split; [discriminate|]. intros H. inversion H; congruence.
Qed.

Lemma trimStart_id (s : t) (c : N) :
  head s = Some c -> is_space c = false -> trimStart s = s.
Proof. destruct s as [|d s]; cbn; [discriminate|]. intros [= ->] ->. reflexivity. Qed.

Lemma trimEnd_prefix (s : t) :
  exists sp, s = trimEnd s ++ sp /\ spaces sp.
Proof.
  unfold trimEnd. destruct (trimStart_suffix (rev s)) as (sp & Hs & Hsp).
  exists (rev sp). split.
  - rewrite <- rev_app_distr, <- Hs, rev_involutive. reflexivity.
  - unfold spaces. apply Forall_rev. exact Hsp.
Qed.

Lemma last_rev_head {A} (l : list A) : last (rev l) = head l.
Proof. destruct l as [|x l]; [reflexivity|]. cbn. apply last_snoc. Qed.

Lemma trimEnd_last (s : t) (c : N) :
  last (trimEnd s) = Some c -> is_space c = false.
Proof.
  unfold trimEnd. rewrite last_rev_head. apply trimStart_head.
Qed.

Lemma spaces_app (a b : t) : spaces (a ++ b) <-> spaces a /\ spaces b.
Proof. unfold spaces. apply Forall_app. Qed.

Lemma trimEnd_nil (s : t) : trimEnd s = [] <-> spaces s.
Proof.
  unfold trimEnd. split.
  - intros H. apply (f_equal (@rev N)) in H. rewrite rev_involutive in H. cbn in H.
    apply trimStart_nil in H. unfold spaces in *.
    apply Forall_rev in H. rewrite rev_involutive in H. exact H.
  - intros H. assert (E : trimStart (rev s) = []).
    { apply trimStart_nil. unfold spaces in *. apply Forall_rev. exact H. }
    rewrite E. reflexivity.
Qed.

Lemma trim_nil (s : t) : trim s = [] <-> spaces s.
Proof.
  unfold trim. rewrite trimEnd_nil.
  destruct (trimStart_suffix s) as (sp & Hs & Hsp).
  split.
  - intros H. rewrite Hs. apply spaces_app. done.
  - intros H. rewrite Hs in H. apply spaces_app in H. apply H.
Qed.

(** [s] is [trim s] between two runs of white space. *)
Lemma trim_decompose (s : t) :
  exists before after, s = before ++ trim s ++ after /\ spaces before /\ spaces after.
Proof.
  destruct (trimStart_suffix s) as (before & Hs & Hb).
  destruct (trimEnd_prefix (trimStart s)) as (after & Ht & Ha).
  exists before, after. unfold trim. rewrite <- Ht. done.
Qed.

Lemma trim_head (s : t) (c : N) : head (trim s) = Some c -> is_space c = false.
Proof.
  unfold trim. destruct (trimEnd_prefix (trimStart s)) as (sp & Ht & _).
  intros H. apply (trimStart_head s). rewrite Ht.
  destruct (trimEnd (trimStart s)); [discriminate|exact H].
Qed.

Lemma trim_last (s : t) (c : N) : last (trim s) = Some c -> is_space c = false.
Proof. apply trimEnd_last. Qed.

Lemma trim_In (s : t) (c : N) : In c (trim s) -> In c s.
Proof.
  destruct (trim_decompose s) as (before & after & Hs & _).
  intros H. rewrite Hs. apply in_or_app. right. apply in_or_app. left. exact H.
Qed.

Lemma split_not_nil (sep : N) (s : t) : split sep s <> [].
Proof.
  induction s as [|c s IH]; cbn; [discriminate|].
  destruct (c =? sep)%N; [discriminate|].
  destruct (split sep s); [contradiction|discriminate].
Qed.

Lemma split_no_sep (sep : N) (s : t) :
  Forall (fun piece => ~ In sep piece) (split sep s).
Proof.
  induction s as [|c s IH]; cbn; [constructor; [tauto|constructor]|].
  destruct (c =? sep)%N eqn:E.
  - constructor; [cbn; tauto|exact IH].
  - apply N.eqb_neq in E.
    destruct (split sep s) as [|piece pieces]; [constructor; [|constructor]|].
    + cbn. intros [H|[]]. congruence.
    + inversion IH as [|? ? Hp Hps]; subst. constructor; [|exact Hps].
      cbn. intros [H|H]; [congruence|contradiction].
Qed.

Lemma split_Forall (P : N -> Prop) (sep : N) (s : t) :
  Forall P s -> Forall (Forall P) (split sep s).
Proof.
  induction 1 as [|c s Hc _ IH]; cbn; [repeat constructor|].
  destruct (c =? sep)%N; [constructor; [constructor|exact IH]|].
  destruct (split sep s) as [|piece pieces]; [repeat constructor; exact Hc|].
  inversion IH; subst. constructor; [constructor; assumption|assumption].
Qed.

Lemma split_Forall_inv (P : N -> Prop) (sep : N) (s : t) :
  P sep -> Forall (Forall P) (split sep s) -> Forall P s.
Proof.
  intros Hsep. induction s as [|c s IH]; cbn; [constructor|].
  destruct (c =? sep)%N eqn:E.
  - apply N.eqb_eq in E. subst c. intros H. inversion H; subst.
    constructor; [exact Hsep|apply IH; assumption].
  - pose proof (split_not_nil sep s) as Hne.
    destruct (split sep s) as [|piece pieces]; [contradiction|].
    intros H. inversion H as [|? ? Hp Hps]; subst.
    inversion Hp; subst. constructor; [assumption|].
    apply IH. constructor; assumption.
Qed.

Lemma split_length (sep : N) (s : t) :
  length (split sep s) = S (length (List.filter (fun c => (c =? sep)%N) s)).
Proof.
  induction s as [|c s IH]; cbn; [reflexivity|].
  destruct (c =? sep)%N; cbn; [rewrite IH; reflexivity|].
  pose proof (split_not_nil sep s) as Hne.
  destruct (split sep s); [contradiction|exact IH].
Qed.

Lemma filter_nil_iff {A} (f : A -> bool) (l : list A) :
  List.filter f l = [] <-> Forall (fun x => f x = false) l.
Proof.
  induction l as [|x l IH]; cbn; [split; [constructor|reflexivity]|].
  destruct (f x) eqn:E.
  - split; [discriminate|]. intros H. inversion H; congruence.
  - rewrite IH. split; [intros H; constructor; assumption|].
    intros H. inversion H; assumption.
Qed.

Lemma truthy_false (s : t) : truthy s = false <-> s = [].
Proof. destruct s; cbn; split; congruence. Qed.

Lemma keywordList_nil (keywords : t) :
  keywordList keywords = [] <->
  Forall (fun c => c = comma \/ is_space c = true) keywords.
Proof.
  unfold keywordList. rewrite filter_nil_iff, Forall_map. split.
  - intros H. apply (split_Forall_inv _ comma); [left; reflexivity|].
    eapply Forall_impl; [exact H|]. intros piece Hp. cbn in Hp.
    apply truthy_false, trim_nil in Hp.
    eapply Forall_impl; [exact Hp|]. cbn. tauto.
  - intros H. apply (split_Forall _ comma) in H.
    pose proof (split_no_sep comma keywords) as Hno.
    rewrite Forall_forall in H, Hno |- *. intros piece Hin. cbn.
    apply truthy_false, trim_nil. unfold spaces. rewrite Forall_forall.
    intros c Hc. specialize (H piece Hin). rewrite Forall_forall in H.
    destruct (H c Hc) as [->|Hs]; [|exact Hs].
    exfalso. apply (Hno piece Hin). apply list_elem_of_In. exact Hc.
Qed.

(** X17: every keyword sent with a new question is non-empty, holds no comma
    and neither starts nor ends with white space, and there is at most one
    keyword more than there are commas in the field. *)
Theorem keywords_are_clean (keywords : t) :
  Forall (fun k =>
            k <> [] /\ ~ In comma k /\
            (forall c, head k = Some c -> is_space c = false) /\
            (forall c, last k = Some c -> is_space c = false))
         (keywordList keywords) /\
  (length (keywordList keywords)
   <= S (length (List.filter (fun c => (c =? comma)%N) keywords)))%nat.
Proof.
  split.
  - apply List.Forall_forall. intros k Hk. unfold keywordList in Hk.
    apply filter_In in Hk. destruct Hk as [Hk Htruthy].
    apply in_map_iff in Hk. destruct Hk as (piece & <- & Hpiece).
    split; [intros E; rewrite E in Htruthy; discriminate|].
    split; [|split; [apply trim_head|apply trim_last]].
    intros Hc. apply trim_In in Hc.
    pose proof (split_no_sep comma keywords) as Hno.
    rewrite List.Forall_forall in Hno. exact (Hno piece Hpiece Hc).
  - unfold keywordList. etransitivity; [apply filter_length_le|].
    rewrite length_map, split_length. lia.
Qed.

(** X18: the form is refused exactly when the question or the keywords field
    is empty or white space only.  Otherwise the question and the sample
    answer are passed on as typed (not trimmed) with the cleaned keywords;
    the keyword list that is passed on is empty exactly when the field holds
    nothing but commas and white space. *)
Theorem submit_refuses_blank_fields (question keywords sample : t) :
  match handleSubmit question keywords sample with
  | None => spaces question \/ spaces keywords
  | Some r =>
    ~ spaces question /\ ~ spaces keywords /\
    NewQuestion.question r = question /\
    NewQuestion.sample_answer r = sample /\
    NewQuestion.keywords r = keywordList keywords /\
    (NewQuestion.keywords r = [] <->
     Forall (fun c => c = comma \/ is_space c = true) keywords)
  end.
Proof.
  unfold handleSubmit.
  destruct (truthy (trim question)) eqn:Eq; cbn [negb orb].
  - destruct (truthy (trim keywords)) eqn:Ek; cbn [negb].
    + cbn [NewQuestion.question NewQuestion.sample_answer NewQuestion.keywords].
      split; [intros H; apply trim_nil in H; rewrite H in Eq; discriminate|].
      split; [intros H; apply trim_nil in H; rewrite H in Ek; discriminate|].
      split; [reflexivity|]. split; [reflexivity|]. split; [reflexivity|].
      apply keywordList_nil.
    + right. apply trim_nil, truthy_false. exact Ek.
  - left. apply trim_nil, truthy_false. exact Eq.
Qed.

End JsStringFacts.
